(** * cycle-count-zc: hysteresis cycle counting and time-series file readers

    A shallow embedding of [cycle_count_zc.py] and [file_io.py].

    Numeric model.  The program computes on float64 values.  Here a finite
    float64 is the rational number it denotes, so samples, thresholds,
    timestamps and frequencies are of type [Q].  Comparison and negation of
    floats are exact, hence the cycle counter is modelled without loss on
    finite samples; NaN and the infinities are outside the model.  The
    arithmetic of the readers (one subtraction, a few divisions and
    [numpy.linspace]) is modelled exactly, without float64 rounding; the
    theorems on the readers are about the shape of what they return and
    about expressions as the code evaluates them.  Where a statement is
    about the values the binary reader computes, it is made on the module
    [Binary64], which has those lines on binary64 numbers.

    Python [int] is [Z]; [//] on a positive divisor is [Z.div]. *)

From Stdlib Require Import ZArith QArith Qabs List Bool Lia Permutation.
From Stdlib Require Import Ascii String DecimalString DecimalNat.
From Stdlib Require PrimFloat.
Import ListNotations.

Set Warnings "-inexact-float".

(** ** Comparisons on samples *)

(** [x < y] on finite floats, decided on the two cross products. *)
Definition Qltb (x y : Q) : bool :=
  (Qnum x * QDen y <? Qnum y * QDen x)%Z.

(** [x > y] is [y < x]. *)
Definition Qgtb (x y : Q) : bool := Qltb y x.

(** Closes an equation between two rational constants. *)
Ltac close_Qeq := unfold Qeq; vm_compute; reflexivity.

(** ** The cycle counter ([cycle_count_zc.py]) *)

Module CycleCount.

(** [THRESHOLD: float = 10.0] *)
Definition THRESHOLD : Q := 10.0.

(** The two loop variables, [state] and [flips].  [state] is the Python
    integer: 0 neutral, 1 above [+threshold], -1 below [-threshold]. *)
Record loop_vars : Type := LoopVars { state : Z; flips : Z }.

(** One iteration of [for value in x], branch for branch. *)
Definition loop_body (threshold : Q) (lv : loop_vars) (value : Q) : loop_vars :=
  if (state lv =? 0)%Z then
    if Qgtb value threshold then LoopVars 1 (flips lv)
    else if Qltb value (- threshold) then LoopVars (-1) (flips lv)
    else lv
  else if (state lv =? 1)%Z then
    if Qltb value (- threshold) then LoopVars (-1) (flips lv + 1)
    else lv
  else
    if Qgtb value threshold then LoopVars 1 (flips lv + 1)
    else lv.

(** The whole loop, from [flips = 0], [state = 0]. *)
Definition run_loop (threshold : Q) (signal : list Q) : loop_vars :=
  fold_left (loop_body threshold) signal (LoopVars 0 0).

(** [count_cycles_zero_crossing(signal, threshold)]: [flips // 2]. *)
Definition count_cycles_zero_crossing (signal : list Q) (threshold : Q) : Z :=
  (flips (run_loop threshold signal) / 2)%Z.

(** *** The state machine in the words of the specification *)

Inductive hysteresis : Type := Neutral | Positive | Negative.

(** A configuration of the specified machine: the state and [flip_count]. *)
Definition config : Type := (hysteresis * Z)%type.

Inductive spec_step (t : Q) : config -> Q -> config -> Prop :=
| neutral_to_positive k v :
    t < v -> spec_step t (Neutral, k) v (Positive, k)
| neutral_to_negative k v :
    v < - t -> spec_step t (Neutral, k) v (Negative, k)
| neutral_stays k v :
    ~ t < v -> ~ v < - t -> spec_step t (Neutral, k) v (Neutral, k)
| positive_flips k v :
    v < - t -> spec_step t (Positive, k) v (Negative, (k + 1)%Z)
| positive_stays k v :
    ~ v < - t -> spec_step t (Positive, k) v (Positive, k)
| negative_flips k v :
    t < v -> spec_step t (Negative, k) v (Positive, (k + 1)%Z)
| negative_stays k v :
    ~ t < v -> spec_step t (Negative, k) v (Negative, k).

(** Processing a sequence strictly in order. *)
Inductive spec_run (t : Q) : config -> list Q -> config -> Prop :=
| run_done c : spec_run t c [] c
| run_next c v c' vs c'' :
    spec_step t c v c' -> spec_run t c' vs c'' -> spec_run t c (v :: vs) c''.

(** How the integer [state] of the code encodes the specified state. *)
Definition encode (h : hysteresis) : Z :=
  match h with Neutral => 0 | Positive => 1 | Negative => -1 end%Z.

Definition vars_of (c : config) : loop_vars := LoopVars (encode (fst c)) (snd c).

(** [state] holds one of its three values. *)
Definition valid_state (lv : loop_vars) : Prop :=
  (state lv = 0 \/ state lv = 1 \/ state lv = -1)%Z.

(** The state with the polarity swapped. *)
Definition mirror (lv : loop_vars) : loop_vars := LoopVars (- state lv) (flips lv).

(** The call as its caller sees it: a returned integer or a raised exception.
    The body has no [raise] and no partial operation. *)
Inductive outcome : Type :=
| Returns (cycles : Z)
| Raises (exception : string).

Definition count_cycles (signal : list Q) (threshold : Q) : outcome :=
  Returns (count_cycles_zero_crossing signal threshold).

End CycleCount.

(** ** The readers and dispatchers ([file_io.py]) *)

Module FileIO.

Open Scope string_scope.

(** *** Exceptions and results *)

(** The exceptions the module raises or lets through, with their message. *)
Inductive exn : Type :=
| ValueError (msg : string)
| RuntimeError (msg : string)
| IndexError (msg : string)
| KeyError (msg : string)
| ZeroDivisionError (msg : string)
| OSError (msg : string).

Inductive result (A : Type) : Type :=
| Ok (a : A)
| Raise (e : exn).
Arguments Ok {A} a.
Arguments Raise {A} e.

Definition bind {A B : Type} (r : result A) (k : A -> result B) : result B :=
  match r with
  | Ok a => k a
  | Raise e => Raise e
  end.

Notation "x <- r ;; k" := (bind r (fun x => k))
  (at level 61, r at next level, right associativity).

(** *** Characters and strings

    A Python [str] is a sequence of code points.  The model has the code
    points U+0000 to U+00FF, one per [ascii] value; the classes below are
    Python's Unicode-aware ones restricted to that range. *)

Definition code (c : ascii) : nat := nat_of_ascii c.

Definition between (lo hi n : nat) : bool := (lo <=? n)%nat && (n <=? hi)%nat.

(** [str.isspace], which is also [\s] of [re] on a [str] pattern and what
    [str.strip()] removes: TAB to CR, FS to US, space, NEL and NBSP. *)
Definition isspace (c : ascii) : bool :=
  let n := code c in
  between 9 13 n || between 28 32 n || (n =? 133)%nat || (n =? 160)%nat.

(** [str.isalnum]: digits, letters and the numeric characters. *)
Definition isalnum (c : ascii) : bool :=
  let n := code c in
  between 48 57 n || between 65 90 n || between 97 122 n
  || (n =? 170)%nat || between 178 179 n || (n =? 181)%nat
  || between 185 186 n || between 188 190 n
  || between 192 214 n || between 216 246 n || between 248 255 n.

(** [\w] of [re]: alphanumeric or underscore. *)
Definition isword (c : ascii) : bool := isalnum c || Ascii.eqb c "_".

(** One character of [str.lower()]. *)
Definition lower_char (c : ascii) : ascii :=
  let n := code c in
  if between 65 90 n || between 192 214 n || between 216 222 n
  then ascii_of_nat (n + 32) else c.

Fixpoint lower (s : string) : string :=
  match s with
  | EmptyString => EmptyString
  | String c s' => String (lower_char c) (lower s')
  end.

Fixpoint lstrip (s : string) : string :=
  match s with
  | EmptyString => EmptyString
  | String c s' => if isspace c then lstrip s' else s
  end.

Fixpoint rstrip (s : string) : string :=
  match s with
  | EmptyString => EmptyString
  | String c s' =>
      match rstrip s' with
      | EmptyString => if isspace c then EmptyString else String c EmptyString
      | r => String c r
      end
  end.

(** [s.strip()] *)
Definition strip (s : string) : string := rstrip (lstrip s).

(** [re.sub(r'\s+', '_', s)]: every maximal run of whitespace becomes one
    underscore.  [in_run] tells that the previous character was whitespace. *)
Fixpoint sub_spaces_from (in_run : bool) (s : string) : string :=
  match s with
  | EmptyString => EmptyString
  | String c s' =>
      if isspace c then
        if in_run then sub_spaces_from true s'
        else String "_" (sub_spaces_from true s')
      else String c (sub_spaces_from false s')
  end.

Definition sub_spaces (s : string) : string := sub_spaces_from false s.

(** The class [[^\w\-./]] matches what [keep] rejects. *)
Definition keep (c : ascii) : bool :=
  isword c || Ascii.eqb c "-" || Ascii.eqb c "." || Ascii.eqb c "/".

(** [re.sub(r'[^\w\-./]', '', s)] *)
Fixpoint sub_unwanted (s : string) : string :=
  match s with
  | EmptyString => EmptyString
  | String c s' => if keep c then String c (sub_unwanted s') else sub_unwanted s'
  end.

(** [str(n)] and [f"{n}"] for a non-negative integer. *)
Definition str (n : nat) : string := NilEmpty.string_of_uint (Nat.to_uint n).

(** [s.split(",")] *)
Fixpoint split_comma (s : string) : list string :=
  match s with
  | EmptyString => [EmptyString]
  | String c s' =>
      if Ascii.eqb c "," then EmptyString :: split_comma s'
      else match split_comma s' with
           | [] => [String c EmptyString]
           | field :: fields => String c field :: fields
           end
  end.

Definition mem (x : string) (l : list string) : bool := existsb (String.eqb x) l.

(** *** The channel name normalizer

    Lines 100 to 109 of [read_lynx_file], repeated word for word at lines 276
    to 285 of [read_lynx_headers]: [name] and [unit] are [name(i)] and
    [unit(i)], and [index] is [i+1]. *)
Definition normalize (name unit : string) (index : nat) : string :=
  let r := sub_spaces (strip name) in
  let u := sub_spaces (strip unit) in
  let r := sub_unwanted r in
  let u := sub_unwanted u in
  let r_with_unit :=
    match u with
    | EmptyString => r
    | _ => r ++ "[" ++ u ++ "]"
    end in
  str index ++ ":" ++ r_with_unit.

(** *** [os.path.splitext]

    [file_io.py] imports [win32com], so [os.path] is [ntpath]: the
    separators are the backslash and the slash. *)

Definition backslash : ascii := ascii_of_nat 92.

(** [p.rfind(c)]: the last index of a character, or -1.  [i] is the index of
    the head of [p]. *)
Fixpoint rfind_from (c : ascii) (p : string) (i : Z) : Z :=
  match p with
  | EmptyString => (-1)%Z
  | String a p' =>
      let later := rfind_from c p' (i + 1)%Z in
      if (0 <=? later)%Z then later
      else if Ascii.eqb a c then i else (-1)%Z
  end.

Definition rfind (c : ascii) (p : string) : Z := rfind_from c p 0.

(** [p[:i]] and [p[i:]] for [0 <= i]. *)
Definition slice_to (p : string) (i : Z) : string := substring 0 (Z.to_nat i) p.
Definition slice_from (p : string) (i : Z) : string :=
  substring (Z.to_nat i) (length p - Z.to_nat i) p.

(** The [while] loop of [genericpath._splitext]: is some character from
    [filenameIndex] up to [dotIndex] not a dot? *)
Definition has_non_dot (p : string) (filenameIndex dotIndex : Z) : bool :=
  existsb (fun k => match get k p with
                    | Some a => negb (Ascii.eqb a ".")
                    | None => true
                    end)
          (seq (Z.to_nat filenameIndex) (Z.to_nat (dotIndex - filenameIndex))).

Definition splitext (p : string) : string * string :=
  let sepIndex := Z.max (rfind backslash p) (rfind "/" p) in
  let dotIndex := rfind "." p in
  if (sepIndex <? dotIndex)%Z && has_non_dot p (sepIndex + 1) dotIndex
  then (slice_to p dotIndex, slice_from p dotIndex)
  else (p, EmptyString).

(** *** Data frames *)

(** A [pandas.DataFrame] of float64 columns: the labelled columns in order. *)
Definition DataFrame : Type := list (string * list Q).

(** [df.columns] *)
Definition columns (df : DataFrame) : list string := map fst df.

(** [df[cols]] for a list of labels: the columns carrying each label, in the
    order of the list. *)
Definition select (cols : list string) (df : DataFrame) : DataFrame :=
  flat_map (fun c => filter (fun col => String.eqb (fst col) c) df) cols.

(** [df[label]] where the label is present once. *)
Definition getitem (df : DataFrame) (label : string) : option (list Q) :=
  option_map snd (find (fun col => String.eqb (fst col) label) df).

(** [df[label] = values]: an existing column is replaced in place, a new one
    is appended as the last column. *)
Definition setitem (df : DataFrame) (label : string) (values : list Q)
  : DataFrame :=
  if mem label (columns df)
  then map (fun col => if String.eqb (fst col) label then (label, values) else col) df
  else (df ++ [(label, values)])%list.

(** [numpy.linspace(start, stop, num)], end point included:
    [arange(num) * step + start] with [step = (stop - start) / (num - 1)],
    and the last entry set to [stop]. *)
Definition linspace (start stop : Q) (num : nat) : list Q :=
  let div := (Z.of_nat num - 1)%Z in
  let delta := stop - start in
  let y := map (fun i : nat =>
                  if (0 <? div)%Z
                  then inject_Z (Z.of_nat i) * (delta / inject_Z div) + start
                  else inject_Z (Z.of_nat i) * delta + start)
               (seq 0 num) in
  if (1 <? num)%nat then (removelast y ++ [stop])%list else y.

(** What both readers return, [(df_temp, base, duration, nomes_sinais, Fs)],
    without [base]: that component is a file name no property below is
    about. *)
Record file_data : Type := FileData {
  df_temp : DataFrame;
  duration : list Q;
  nomes_sinais : list string;
  Fs : Q
}.

(** *** The binary driver and the file system *)

(** What [ReadBuffer] hands back: the tuple [(success, buffer, NOut)], the
    buffer being the one passed in, filled, or something that is no tuple. *)
Inductive read_result : Type :=
| ReadTuple (success : bool) (buffer_data : nat -> Q) (n_out : Z)
| ReadOther.

(** The COM object [LynxFile.FileTS] after [OpenFile(filename)]: the answer
    of [OpenFile], the metadata, and the answers of [ReadBuffer(i, offset,
    length, buffer)].  [ErrorCodeStr] is the diagnostic of the failed call;
    the reader stops at the first one. *)
Record FileTS : Type := {
  OpenFile : bool;
  ErrorCodeStr : string;
  SnName : nat -> string;
  SnUnit : nat -> string;
  nChannels : nat;
  nSamples : nat;
  SampleFreq : Q;
  ReadBuffer : nat -> Z -> nat -> read_result
}.

(** Everything outside the module that a call depends on: the driver, the
    parser [pandas.read_csv] and the first line of a text file. *)
Record world : Type := {
  Dispatch_FileTS : string -> FileTS;
  read_csv : string -> result DataFrame;
  readline : string -> result string
}.

(** *** [read_lynx_file] *)

(** The body of [for i in range(channels)], from channel [i] on: the pairs
    of [channel_names] and [data_matrix] entries, or the first failure. *)
Fixpoint read_channels (o : FileTS) (length : nat) (i todo : nat)
  : result (list (string * list Q)) :=
  match todo with
  | O => Ok []
  | S todo' =>
      let r_with_unit := normalize (SnName o i) (SnUnit o i) (i + 1) in
      match ReadBuffer o i 0%Z length with
      | ReadOther => Raise (RuntimeError "ReadBuffer retornou valor inesperado.")
      | ReadTuple success buffer_data n_out =>
          if negb success
          then Raise (RuntimeError
                        ("Erro ao ler canal " ++ str i ++ ": " ++ ErrorCodeStr o))
          else
            rest <- read_channels o length (S i) todo' ;;
            Ok ((r_with_unit, map buffer_data (seq 0 length)) :: rest)
      end
  end.

(** [pd.DataFrame(np.vstack(data_matrix).T, columns=channel_names)]:
    [vstack] refuses an empty list. *)
Definition frame_of_channels (chans : list (string * list Q)) : result DataFrame :=
  match chans with
  | [] => Raise (ValueError "need at least one array to concatenate")
  | _ => Ok chans
  end.

(** [a / b] with a Python float divisor. *)
Definition truediv (a b : Q) : result Q :=
  if Qeq_bool b 0 then Raise (ZeroDivisionError "float division by zero")
  else Ok (a / b).

Definition read_lynx_file (w : world) (filename : string) : result file_data :=
  let oFileTS := Dispatch_FileTS w filename in
  if negb (OpenFile oFileTS)
  then Raise (RuntimeError ("Erro ao abrir arquivo: " ++ ErrorCodeStr oFileTS))
  else
    let channels := nChannels oFileTS in
    let length := nSamples oFileTS in
    let Fs := SampleFreq oFileTS in
    chans <- read_channels oFileTS length 0 channels ;;
    df_temp <- frame_of_channels chans ;;
    stop <- truediv (inject_Z (Z.of_nat length - 1)) Fs ;;
    let df_temp := setitem df_temp "time" (linspace 0 stop length) in
    d <- truediv (inject_Z (Z.of_nat length)) Fs ;;
    Ok (FileData df_temp [d] (columns df_temp) Fs).

(** *** [read_text_file] *)

Definition MissingTimeColumn (filename : string) : exn :=
  ValueError ("'time' column not found in " ++ filename).

Definition read_text_file (w : world) (filename : string) : result file_data :=
  df_temp <- read_csv w filename ;;
  if negb (mem "time" (columns df_temp))
  then Raise (MissingTimeColumn filename)
  else
    let df_temp :=
      match columns df_temp with
      | first :: others =>
          if String.eqb first "time"
          then select (others ++ ["time"])%list df_temp
          else df_temp
      | [] => df_temp
      end in
    match getitem df_temp "time" with
    | None => Raise (KeyError "time")
    | Some time_data =>
        let length := List.length time_data in
        match time_data with
        | [] => Raise (IndexError "single positional indexer is out-of-bounds")
        | first :: _ =>
            let d := last time_data first - first in
            let Fs := if negb (Qeq_bool d 0)
                      then inject_Z (Z.of_nat length - 1) / d
                      else 0 in
            Ok (FileData df_temp [d] (columns df_temp) Fs)
        end
    end.

(** *** The header readers *)

(** The loop of [read_lynx_headers]: one identifier per channel index. *)
Definition header_names (name unit : nat -> string) (channels : nat) : list string :=
  map (fun i => normalize (name i) (unit i) (i + 1)) (seq 0 channels).

(** [read_lynx_headers]: the answer of [OpenFile] is not looked at. *)
Definition read_lynx_headers (w : world) (filename : string) : result (list string) :=
  let oFileTS := Dispatch_FileTS w filename in
  Ok (header_names (SnName oFileTS) (SnUnit oFileTS) (nChannels oFileTS)).

Definition read_text_headers (w : world) (filename : string) : result (list string) :=
  header_line <- readline w filename ;;
  let nomes_sinais := map strip (split_comma (strip header_line)) in
  Ok (filter (fun s => negb (String.eqb (lower s) "time")) nomes_sinais).

(** *** The dispatchers *)

Definition UnsupportedFormat (ext : string) : exn :=
  ValueError ("Unsupported file type: " ++ ext).

Definition lynx_extensions : list string := [".tem"; ".ltx"; ".ltd"].
Definition text_extensions : list string := [".csv"; ".txt"; ".asc"].

Definition read_file_data (w : world) (filename : string) : result file_data :=
  let ext := lower (snd (splitext filename)) in
  if mem ext lynx_extensions then read_lynx_file w filename
  else if mem ext text_extensions then read_text_file w filename
  else Raise (UnsupportedFormat ext).

Definition read_channel_headers (w : world) (filename : string)
  : result (list string) :=
  let ext := lower (snd (splitext filename)) in
  if mem ext lynx_extensions then read_lynx_headers w filename
  else if mem ext text_extensions then read_text_headers w filename
  else Raise (UnsupportedFormat ext).

(** The time vector of a data frame, and its two ends. *)
Definition time_of (d : file_data) : list Q :=
  match getitem (df_temp d) "time" with
  | Some t => t
  | None => []
  end.

Definition time_span (d : file_data) : Q :=
  match time_of d with
  | [] => 0
  | first :: _ => last (time_of d) first - first
  end.

(** The cleaning rule in the order the specification words it: collapse the
    whitespace runs, then strip, then remove the unwanted characters. *)
Definition spec_clean (s : string) : string :=
  sub_unwanted (strip (sub_spaces s)).

(** Does a character occur in a string? *)
Fixpoint occurs (c : ascii) (s : string) : bool :=
  match s with
  | EmptyString => false
  | String a s' => Ascii.eqb a c || occurs c s'
  end.

(** The raw names and units of a list of pairs, by channel index. *)
Definition name_of (pairs : list (string * string)) (i : nat) : string :=
  fst (nth i pairs (EmptyString, EmptyString)).
Definition unit_of (pairs : list (string * string)) (i : nat) : string :=
  snd (nth i pairs (EmptyString, EmptyString)).

End FileIO.

(** ** Sample files *)

Module Samples.
Import FileIO.
Open Scope string_scope.

(** A driver that opens and reads well: two channels named alike, five
    samples at 10 Hz, channel [i] holding [i, i+1, ...]. *)
Definition two_channels : FileTS := {|
  OpenFile := true;
  ErrorCodeStr := "";
  SnName := fun _ => "Force  X";
  SnUnit := fun _ => "k N";
  nChannels := 2;
  nSamples := 5;
  SampleFreq := 10.0;
  ReadBuffer := fun i _ _ =>
    ReadTuple true (fun k => inject_Z (Z.of_nat (i + k))) 5
|}.

(** A file system holding one parsed table and one binary file. *)
Definition world_of (table : DataFrame) : world := {|
  Dispatch_FileTS := fun _ => two_channels;
  read_csv := fun _ => Ok table;
  readline := fun _ => Ok (String.concat "," (columns table))
|}.

Definition table_time_first : DataFrame :=
  [("time", [0; 1; 2]); ("A", [5; 6; 7]); ("B", [8; 9; 10])].

Definition table_time_middle : DataFrame :=
  [("A", [5; 6; 7]); ("time", [0; 1; 2]); ("B", [8; 9; 10])].

Definition table_Time : DataFrame :=
  [("Time", [0; 1; 2]); ("A", [5; 6; 7])].

Definition table_TIME : DataFrame :=
  [("A", [5; 6; 7]); ("TIME", [0; 1; 2])].

End Samples.

(** ** The arithmetic of the binary reader in binary64

    The readers above compute in exact rationals, which is right for the
    shape of what they return and for every comparison.  The values that
    lines 131 and 133 of [read_lynx_file] compute are float64 values; this
    module has those two lines with the rounding of the machine, on Rocq's
    primitive binary64 numbers. *)

Module Binary64.
Import FileIO PrimFloat.

(** [float(n)] for a Python [int]; exact below 2^53, far above the 32-bit
    counts of the driver. *)
Fixpoint float_of_pos (p : positive) : float :=
  match p with
  | xH => 1%float
  | xO q => (2 * float_of_pos q)%float
  | xI q => (2 * float_of_pos q + 1)%float
  end.

Definition float_of_Z (z : Z) : float :=
  match z with
  | Z0 => 0%float
  | Zpos p => float_of_pos p
  | Zneg p => (- float_of_pos p)%float
  end.

(** [a / b] with a Python float divisor. *)
Definition truediv (a b : float) : result float :=
  if (b =? 0)%float
  then Raise (ZeroDivisionError "float division by zero")
  else Ok (a / b)%float.

(** Entry [i] of [numpy.linspace(start, stop, num)] before the last entry
    is overwritten: [arange(num)[i] * step + start], with the detour of
    numpy for a step that rounds to zero, and [* delta] where there is no
    step. *)
Definition point (start stop : float) (num i : nat) : float :=
  let div := (Z.of_nat num - 1)%Z in
  let delta := (stop - start)%float in
  let y := float_of_Z (Z.of_nat i) in
  ((if (0 <? div)%Z then
      let step := (delta / float_of_Z div)%float in
      if (step =? 0)%float then (y / float_of_Z div * delta)%float
      else (y * step)%float
    else (y * delta)%float) + start)%float.

(** [numpy.linspace(start, stop, num)], end point included. *)
Definition linspace (start stop : float) (num : nat) : list float :=
  let y := map (point start stop num) (seq 0 num) in
  if (1 <? num)%nat then (removelast y ++ [stop])%list else y.

(** Line 131, [np.linspace(0, (length - 1) / Fs, length)]. *)
Definition lynx_time (length : nat) (Fs : float) : result (list float) :=
  stop <- truediv (float_of_Z (Z.of_nat length - 1)) Fs ;;
  Ok (linspace 0%float stop length).

(** Line 133, [[length / Fs]]. *)
Definition lynx_duration (length : nat) (Fs : float) : result (list float) :=
  d <- truediv (float_of_Z (Z.of_nat length)) Fs ;;
  Ok [d].

End Binary64.

(** ** Notions for further properties *)

Module Notions.
Import FileIO.
Open Scope string_scope.

(** Does every character of a string pass a test? *)
Fixpoint every_char (p : ascii -> bool) (s : string) : bool :=
  match s with
  | EmptyString => true
  | String c s' => p c && every_char p s'
  end.

(** The characters an identifier is made of: those the cleaning keeps, and
    the colon and the brackets that the format adds. *)
Definition ident_char (c : ascii) : bool :=
  keep c || Ascii.eqb c ":" || Ascii.eqb c "[" || Ascii.eqb c "]".

(** The cleaning that [normalize] applies to a name and to a unit. *)
Definition clean (s : string) : string := sub_unwanted (sub_spaces (strip s)).

Definition is_sep (c : ascii) : bool := Ascii.eqb c backslash || Ascii.eqb c "/".

(** A signal that swings between [a] and [-a], starting at [a]. *)
Definition swing (a : Q) (i : nat) : Q := if Nat.even i then a else - a.

(** A sample cut off at [m] and at [-m], as a sensor that saturates
    returns it. *)
Definition clip (m v : Q) : Q :=
  if Qgtb v m then m else if Qltb v (- m) then - m else v.
End Notions.

(** ** More drivers *)

Module Drivers.
Import FileIO.
Open Scope string_scope.

(** The samples a read handed back; nothing for what is no tuple. *)
Definition buffer_of (r : read_result) (k : nat) : Q :=
  match r with
  | ReadTuple _ buffer_data _ => buffer_data k
  | ReadOther => 0
  end.

(** Did a read hand back a tuple that reports success? *)
Definition read_ok (r : read_result) : bool :=
  match r with
  | ReadTuple success _ _ => success
  | ReadOther => false
  end.

(** A driver with [channels] channels of [samples] samples at 100 Hz, whose
    read of channel [bad] reports failure with the diagnostic "E42". *)
Definition failing_at (bad channels samples : nat) : FileTS := {|
  OpenFile := true;
  ErrorCodeStr := "E42";
  SnName := fun _ => "Strain";
  SnUnit := fun _ => "";
  nChannels := channels;
  nSamples := samples;
  SampleFreq := 100;
  ReadBuffer := fun i _ _ =>
    ReadTuple (negb (i =? bad)%nat) (fun k => inject_Z (Z.of_nat k)) 0
|}.

(** A file system in which every binary file is answered by one driver. *)
Definition world_with (o : FileTS) : world := {|
  Dispatch_FileTS := fun _ => o;
  read_csv := fun _ => Raise (OSError "no such file");
  readline := fun _ => Raise (OSError "no such file")
|}.

End Drivers.

(** ** Header lines *)

Module Headers.
Import FileIO.
Open Scope string_scope.

(** The line feed that ends a line read by [readline]. *)
Definition newline : string := String (ascii_of_nat 10) EmptyString.

(** A header field as a file has it: no whitespace and no comma in it. *)
Definition plain (c : ascii) : bool := negb (isspace c) && negb (Ascii.eqb c ",").

(** [c.lower() != "time"], the test of [read_text_headers] and of
    [process_files] for a channel. *)
Definition is_channel (c : string) : bool := negb (String.eqb (lower c) "time").

(** A file system in which every text file starts with the given line. *)
Definition world_of_line (line : string) : world := {|
  Dispatch_FileTS := fun _ => Samples.two_channels;
  read_csv := fun _ => Raise (OSError "not parsed");
  readline := fun _ => Ok line
|}.

(** A string that does not start with whitespace. *)
Definition starts_clean (s : string) : Prop :=
  match s with
  | EmptyString => True
  | String c _ => isspace c = false
  end.

End Headers.

(** ** The batch run ([process_files] of [cycle_count_zc.py])

    The model follows [process_files] from the paths the file dialog
    returned up to the two arguments of [pd.DataFrame(rows, columns=header)]:
    the rows and the header of the summary.  The messages printed and the
    writing of the summary file are not part of it.  [os.path.basename] and
    [round(x, 4)], library functions that fill the first two cells of a row,
    are parameters. *)

Module Process.
Import FileIO CycleCount Headers.
Open Scope string_scope.

(** One entry of [rows]: the file name, the rounded duration, and one cycle
    count per channel. *)
Record row : Type := Row { File : string; Duration : Q; cycles : list Z }.

(** What ends the run other than a summary: the use of [df] before any
    file was read, or an exception nothing catches. *)
Inductive crash : Type :=
| Unbound_df
| Uncaught (e : exn).

Inductive report : Type :=
| NoFileSelected
| Crashed (c : crash)
| Summary (header : list string) (rows : list row).

(** [[c for c in df.columns if c.lower() != "time"]] *)
Definition channels_of (df : DataFrame) : list string :=
  filter is_channel (columns df).

(** [df[col].values], for a label the frame has once, as the frames of both
    readers do. *)
Definition values_of (df : DataFrame) (col : string) : list Q :=
  match getitem df col with
  | Some values => values
  | None => []
  end.

(** Can a path be read? *)
Definition readable (w : world) (path : string) : bool :=
  match read_file_data w path with
  | Ok _ => true
  | Raise _ => false
  end.

(** The binding of [df] after the loop: the frame of the last path that
    could be read. *)
Definition last_frame (w : world) (paths : list string)
           (df : option DataFrame) : option DataFrame :=
  fold_left (fun acc path =>
               match read_file_data w path with
               | Ok d => Some (df_temp d)
               | Raise _ => acc
               end) paths df.

(** A row of the frame [out_df]: a count that the row does not have is
    left empty. *)
Record line : Type := Line {
  name : string;
  seconds : Q;
  counts : list (option Z)
}.

(** The number of cells of a row. *)
Definition width (r : row) : nat := 2 + List.length (cycles r).

(** The row filled up with empty cells to [k] cells. *)
Definition pad (k : nat) (r : row) : line :=
  Line (File r) (Duration r)
       (map Some (cycles r) ++ repeat None (k - width r))%list.

(** [pd.DataFrame(rows, columns=header)] on a list of lists: the data are
    as wide as the widest row, shorter rows are filled up, and a header of
    another width is refused. *)
Definition frame_of_rows (header : list string) (rows : list row)
  : result (list line) :=
  match rows with
  | [] => Ok []
  | _ =>
      let k := fold_right Nat.max 0%nat (map width rows) in
      if (List.length header =? k)%nat then Ok (map (pad k) rows)
      else Raise (ValueError (str (List.length header) ++ " columns passed, "
                              ++ "passed data had " ++ str k ++ " columns"))
  end.

(** How far a run gets: it ends at once, it is ended by an exception, or it
    builds the frame [out_df] of line 144 that is then written. *)
Inductive progress : Type :=
| NothingSelected
| Ended (c : crash)
| Frame (header : list string) (lines : list line).

Section Cells.
Variable basename : string -> string.
Variable round4 : Q -> Q.

(** The body of the loop after a successful read: the row of one file. *)
Definition row_of (path : string) (d : file_data) : result row :=
  match duration d with
  | [] => Raise (IndexError "list index out of range")
  | seconds :: _ =>
      let channels := channels_of (df_temp d) in
      Ok (Row (basename path) (round4 seconds)
              (map (fun col =>
                      count_cycles_zero_crossing (values_of (df_temp d) col)
                                                 THRESHOLD)
                   channels))
  end.

(** [for path in paths], with [rows] and the last binding of [df]. *)
Fixpoint read_all (w : world) (paths : list string) (rows : list row)
         (df : option DataFrame) : result (list row * option DataFrame) :=
  match paths with
  | [] => Ok (rows, df)
  | path :: rest =>
      match read_file_data w path with
      | Raise _ => read_all w rest rows df
      | Ok d =>
          match row_of path d with
          | Raise e => Raise e
          | Ok r => read_all w rest (rows ++ [r])%list (Some (df_temp d))
          end
      end
  end.

(** [process_files()], given the paths selected in the dialog. *)
Definition process_files (w : world) (paths : list string) : report :=
  match paths with
  | [] => NoFileSelected
  | _ =>
      match read_all w paths [] None with
      | Raise e => Crashed (Uncaught e)
      | Ok (_, None) => Crashed Unbound_df
      | Ok (rows, Some df) =>
          Summary (["File"; "Duration (s)"] ++ channels_of df)%list rows
      end
  end.

(** [process_files] up to [out_df]. *)
Definition summary_frame (w : world) (paths : list string) : progress :=
  match process_files w paths with
  | NoFileSelected => NothingSelected
  | Crashed c => Ended c
  | Summary header rows =>
      match frame_of_rows header rows with
      | Ok lines => Frame header lines
      | Raise e => Ended (Uncaught e)
      end
  end.

End Cells.

End Process.

Lemma Qltb_lt (x y : Q) : Qltb x y = true <-> x < y.
Proof. unfold Qltb, Qlt. apply Z.ltb_lt. Qed.

Lemma Qltb_nlt (x y : Q) : Qltb x y = false <-> ~ x < y.
Proof.
  rewrite <- Qltb_lt. destruct (Qltb x y); split; congruence.
Qed.

Lemma Qgtb_lt (x y : Q) : Qgtb x y = true <-> y < x.
Proof. apply Qltb_lt. Qed.

Lemma Qgtb_nlt (x y : Q) : Qgtb x y = false <-> ~ y < x.
Proof. apply Qltb_nlt. Qed.

(** Negating both sides swaps them; this is what makes the two polarities of
    the detector mirror images. *)
Lemma Qltb_opp_l (v t : Q) : Qltb (- v) (- t) = Qgtb v t.
Proof.
  unfold Qgtb, Qltb. destruct v as [vn vd], t as [tn td]. simpl.
  rewrite !Z.mul_opp_l.
  destruct (Z.ltb_spec (tn * Zpos vd) (vn * Zpos td));
    [apply Z.ltb_lt | apply Z.ltb_ge]; lia.
Qed.

Lemma Qgtb_opp_l (v t : Q) : Qgtb (- v) t = Qltb v (- t).
Proof.
  unfold Qgtb, Qltb. destruct v as [vn vd], t as [tn td]. simpl.
  rewrite !Z.mul_opp_l.
  destruct (Z.ltb_spec (vn * Zpos td) (- (tn * Zpos vd)));
    [apply Z.ltb_lt | apply Z.ltb_ge]; lia.
Qed.

(** ** Theorems about the cycle counter *)

Section CycleCountFacts.
Import CycleCount.

(** The code takes a step of the specified machine at every sample. *)
Lemma loop_body_spec_step (t : Q) (c : config) (v : Q) :
  exists c', spec_step t c v c' /\ loop_body t (vars_of c) v = vars_of c'.
Proof.
  destruct c as [h k]. unfold loop_body, vars_of; destruct h; simpl.
  - destruct (Qgtb v t) eqn:Hp.
    + exists (Positive, k). split; [constructor; now apply Qgtb_lt | reflexivity].
    + destruct (Qltb v (- t)) eqn:Hn.
      * exists (Negative, k).
        split; [apply neutral_to_negative; now apply Qltb_lt | reflexivity].
      * exists (Neutral, k).
        split; [apply neutral_stays; [now apply Qgtb_nlt | now apply Qltb_nlt]
               | reflexivity].
  - destruct (Qltb v (- t)) eqn:Hn.
    + exists (Negative, (k + 1)%Z).
      split; [constructor; now apply Qltb_lt | reflexivity].
    + exists (Positive, k).
      split; [apply positive_stays; now apply Qltb_nlt | reflexivity].
  - destruct (Qgtb v t) eqn:Hp.
    + exists (Positive, (k + 1)%Z).
      split; [constructor; now apply Qgtb_lt | reflexivity].
    + exists (Negative, k).
      split; [apply negative_stays; now apply Qgtb_nlt | reflexivity].
Qed.

Lemma fold_loop_spec_run (t : Q) (signal : list Q) :
  forall c, exists c',
    spec_run t c signal c' /\
    fold_left (loop_body t) signal (vars_of c) = vars_of c'.
Proof.
  induction signal as [|v vs IH]; intros c.
  - exists c. split; [constructor | reflexivity].
  - destruct (loop_body_spec_step t c v) as (c1 & Hstep & Heq).
    destruct (IH c1) as (c2 & Hrun & Hfold).
    exists c2. split; [econstructor; eassumption |].
    simpl. rewrite Heq. exact Hfold.
Qed.

(** With a non-negative threshold a sample cannot be on both sides, so the
    specified machine has one step only. *)
Lemma spec_step_deterministic (t : Q) (c : config) (v : Q) (c1 c2 : config) :
  0 <= t -> spec_step t c v c1 -> spec_step t c v c2 -> c1 = c2.
Proof.
  intros Ht H1 H2.
  assert (Hex : t < v -> v < - t -> False).
  { intros Ha Hb.
    assert (Hc : - t <= 0) by (apply (Qopp_le_compat 0 t); exact Ht).
    apply (Qlt_irrefl t).
    apply Qlt_le_trans with v; [exact Ha |].
    apply Qle_trans with (- t); [apply Qlt_le_weak; exact Hb |].
    apply Qle_trans with 0; assumption. }
  inversion H1; subst; inversion H2; subst;
    try reflexivity; try contradiction; exfalso; auto.
Qed.

Lemma spec_run_deterministic (t : Q) (signal : list Q) :
  0 <= t -> forall c c1 c2,
  spec_run t c signal c1 -> spec_run t c signal c2 -> c1 = c2.
Proof.
  intros Ht. induction signal as [|v vs IH]; intros c c1 c2 H1 H2.
  - inversion H1; inversion H2; congruence.
  - inversion H1; subst; inversion H2; subst.
    assert (c' = c'0) by (eapply spec_step_deterministic; eassumption).
    subst. eapply IH; eassumption.
Qed.

(** Inside the band the machine never leaves [Neutral]. *)
Lemma fold_loop_in_band (t : Q) (signal : list Q) :
  0 < t -> Forall (fun v => Qabs v <= t) signal ->
  fold_left (loop_body t) signal (LoopVars 0 0) = LoopVars 0 0.
Proof.
  intros Ht Hall. induction Hall as [|v vs Hv _ IH]; [reflexivity |].
  simpl. unfold loop_body at 2. simpl.
  apply Qabs_Qle_condition in Hv. destruct Hv as [Hlo Hhi].
  replace (Qgtb v t) with false
    by (symmetry; apply Qgtb_nlt; now apply Qle_not_lt).
  replace (Qltb v (- t)) with false
    by (symmetry; apply Qltb_nlt; now apply Qle_not_lt).
  exact IH.
Qed.

(** A sample cannot be beyond both thresholds when the threshold is not
    negative. *)
Lemma not_both_sides (t v : Q) :
  0 <= t -> Qgtb v t = true -> Qltb v (- t) = true -> False.
Proof.
  intros Ht Hp Hn. apply Qgtb_lt in Hp. apply Qltb_lt in Hn.
  assert (Hc : - t <= 0) by (apply (Qopp_le_compat 0 t); exact Ht).
  apply (Qlt_irrefl t).
  apply Qlt_le_trans with v; [exact Hp |].
  apply Qle_trans with (- t); [apply Qlt_le_weak; exact Hn |].
  apply Qle_trans with 0; assumption.
Qed.

Lemma loop_body_valid (t : Q) (lv : loop_vars) (v : Q) :
  valid_state lv -> valid_state (loop_body t lv v).
Proof.
  unfold valid_state, loop_body. intros Hst.
  destruct (state lv =? 0)%Z; [| destruct (state lv =? 1)%Z];
    repeat match goal with |- context [if ?b then _ else _] => destruct b end;
    simpl; auto.
Qed.

(** Negating a sample and swapping the polarity of the state commute, as
    long as the threshold is not negative. *)
Lemma loop_body_mirror (t : Q) (lv : loop_vars) (v : Q) :
  0 <= t -> valid_state lv ->
  loop_body t (mirror lv) (- v) = mirror (loop_body t lv v).
Proof.
  intros Ht Hst. destruct lv as [s f]. unfold valid_state in Hst. simpl in Hst.
  unfold loop_body, mirror; simpl.
  rewrite Qgtb_opp_l, Qltb_opp_l.
  destruct Hst as [-> | [-> | ->]]; simpl;
    destruct (Qgtb v t) eqn:Hp; destruct (Qltb v (- t)) eqn:Hn; simpl;
    try reflexivity;
    exfalso; eapply not_both_sides; eassumption.
Qed.

Lemma fold_loop_mirror (t : Q) (signal : list Q) :
  0 <= t -> forall lv, valid_state lv ->
  fold_left (loop_body t) (map Qopp signal) (mirror lv) =
  mirror (fold_left (loop_body t) signal lv).
Proof.
  intros Ht. induction signal as [|v vs IH]; intros lv Hst; [reflexivity |].
  simpl. rewrite loop_body_mirror by assumption.
  apply IH. now apply loop_body_valid.
Qed.

(** [flips] only grows. *)
Lemma loop_body_flips_mono (t : Q) (lv : loop_vars) (v : Q) :
  (flips lv <= flips (loop_body t lv v))%Z.
Proof.
  unfold loop_body.
  repeat match goal with |- context [if ?b then _ else _] => destruct b end;
    simpl; lia.
Qed.

Lemma fold_loop_flips_mono (t : Q) (signal : list Q) :
  forall lv, (flips lv <= flips (fold_left (loop_body t) signal lv))%Z.
Proof.
  induction signal as [|v vs IH]; intros lv; simpl; [lia |].
  eapply Z.le_trans; [apply (loop_body_flips_mono t lv v) | apply IH].
Qed.

Lemma run_loop_flips_nonneg (t : Q) (signal : list Q) :
  (0 <= flips (run_loop t signal))%Z.
Proof. apply (fold_loop_flips_mono t signal (LoopVars 0 0)). Qed.

(** C1, as the code has it.  [count_cycles_zero_crossing] is the specified
    three-state machine:
    on every input the loop of the code is a run of the machine from
    [Neutral] with [flip_count = 0] (no flip on leaving [Neutral], one flip on
    each direct change between [Positive] and [Negative]), and the value
    returned is [flip_count // 2]; for a threshold that is not negative that
    run is the only one.  For threshold 10.0 the input [0, 11, -12, 13, -14]
    gives 1 (three flips), [0, 11, -12, 13, -14, 15] gives 2 (four flips) and
    [5, -5, 5, -5] gives 0; for every threshold [t > 0] the empty sequence
    and every sequence that stays within [t] in absolute value give 0. *)
Theorem count_cycles_is_hysteresis_machine :
  (forall signal t, exists h k,
      spec_run t (Neutral, 0%Z) signal (h, k) /\
      count_cycles_zero_crossing signal t = (k / 2)%Z) /\
  (forall signal t h k,
      0 <= t -> spec_run t (Neutral, 0%Z) signal (h, k) ->
      count_cycles_zero_crossing signal t = (k / 2)%Z) /\
  count_cycles_zero_crossing [0; 11; -12; 13; -14] 10.0 = 1%Z /\
  count_cycles_zero_crossing [0; 11; -12; 13; -14; 15] 10.0 = 2%Z /\
  count_cycles_zero_crossing [5; -5; 5; -5] 10.0 = 0%Z /\
  (forall t, 0 < t -> count_cycles_zero_crossing [] t = 0%Z) /\
  (forall t signal,
      0 < t -> Forall (fun v => Qabs v <= t) signal ->
      count_cycles_zero_crossing signal t = 0%Z).
Proof.
  assert (Hrun : forall signal t, exists h k,
             spec_run t (Neutral, 0%Z) signal (h, k) /\
             count_cycles_zero_crossing signal t = (k / 2)%Z).
  { intros signal t.
    destruct (fold_loop_spec_run t signal (Neutral, 0%Z)) as ([h k] & Hr & Hf).
    exists h, k. split; [exact Hr |].
    unfold count_cycles_zero_crossing, run_loop.
    change (LoopVars 0 0) with (vars_of (Neutral, 0%Z)).
    rewrite Hf. reflexivity. }
  split; [exact Hrun |].
  split.
  { intros signal t h k Ht Hr.
    destruct (Hrun signal t) as (h' & k' & Hr' & ->).
    assert (E : (h', k') = (h, k))
      by (eapply spec_run_deterministic; eassumption).
    now inversion E. }
  split; [reflexivity |]. split; [reflexivity |]. split; [reflexivity |].
  split; [intros t _; reflexivity |].
  intros t signal Ht Hall.
  unfold count_cycles_zero_crossing, run_loop.
  rewrite fold_loop_in_band by assumption. reflexivity.
Qed.

Lemma count_cycles_is_hysteresis_machine_witness :
  0 < 10.0 /\ Forall (fun v => Qabs v <= 10.0) [5; -5; 10.0] /\
  count_cycles_zero_crossing [5; -5; 10.0] 10.0 = 0%Z.
Proof.
  assert (Ht : 0 < 10.0) by reflexivity.
  assert (Hall : Forall (fun v => Qabs v <= 10.0) [5; -5; 10.0])
    by (repeat constructor; discriminate).
  split; [exact Ht |]. split; [exact Hall |].
  exact (proj2 (proj2 (proj2 (proj2 (proj2 (proj2
           count_cycles_is_hysteresis_machine))))) 10.0 [5; -5; 10.0] Ht Hall).
Defined.

(** C1 fails as stated: on [0, 11, -12, 13, -14, 15] with threshold 10.0 the
    loop counts four flips, at -12, 13, -14 and 15, and the call returns 2,
    not 1. *)
Lemma count_cycles_six_samples_two_cycles :
  run_loop 10.0 [0; 11; -12; 13; -14; 15] = LoopVars 1 4 /\
  count_cycles_zero_crossing [0; 11; -12; 13; -14; 15] 10.0 = 2%Z /\
  count_cycles_zero_crossing [0; 11; -12; 13; -14; 15] 10.0 <> 1%Z.
Proof.
  split; [reflexivity |]. split; [reflexivity |]. discriminate.
Qed.

(** C6, as the code has it.  The counter does not validate its threshold:
    with a threshold that is zero or negative the call still returns, and
    what it returns is [flips // 2] of the same loop, a non-negative
    integer. *)
Theorem count_cycles_accepts_any_threshold (signal : list Q) (threshold : Q) :
  threshold <= 0 ->
  exists cycles,
    count_cycles signal threshold = Returns cycles /\
    cycles = (flips (run_loop threshold signal) / 2)%Z /\
    (0 <= cycles)%Z.
Proof.
  intros _. exists (count_cycles_zero_crossing signal threshold).
  split; [reflexivity |]. split; [reflexivity |].
  unfold count_cycles_zero_crossing. apply Z.div_pos; [| lia].
  apply run_loop_flips_nonneg.
Qed.

Lemma count_cycles_accepts_any_threshold_witness :
  - (10.0) <= 0 /\
  exists cycles,
    count_cycles [0; 5; 20; 20]%Q (- (10.0))%Q = Returns cycles /\
    cycles = (flips (run_loop (- (10.0))%Q [0; 5; 20; 20]%Q) / 2)%Z /\
    (0 <= cycles)%Z.
Proof.
  assert (Ht : - (10.0) <= 0) by discriminate.
  split; [exact Ht |].
  exact (count_cycles_accepts_any_threshold [0; 5; 20; 20] (- (10.0)) Ht).
Defined.

(** C6 fails as stated: with threshold 0, and with threshold -10, the call
    returns a count and raises nothing. *)
Lemma count_cycles_zero_threshold_returns :
  ~ 0 < 0 /\
  count_cycles [1; -1; 1]%Q 0%Q = Returns 1 /\
  ~ 0 < - (10.0) /\
  count_cycles [0; 5; 20; 20]%Q (- (10.0))%Q = Returns 1 /\
  forall exception,
    count_cycles [1; -1; 1]%Q 0%Q <> Raises exception /\
    count_cycles [0; 5; 20; 20]%Q (- (10.0))%Q <> Raises exception.
Proof.
  split; [discriminate |]. split; [reflexivity |].
  split; [discriminate |]. split; [reflexivity |].
  intros exception. split; discriminate.
Qed.

(** C10, as the code has it.  Negating every sample leaves the count
    unchanged for every threshold that is not negative, so for every
    threshold the counter is meant for. *)
Theorem count_cycles_negation_symmetric (signal : list Q) (threshold : Q) :
  0 <= threshold ->
  count_cycles_zero_crossing (map Qopp signal) threshold =
  count_cycles_zero_crossing signal threshold.
Proof.
  intros Ht. unfold count_cycles_zero_crossing, run_loop.
  change (LoopVars 0 0) with (mirror (LoopVars 0 0)) at 1.
  rewrite fold_loop_mirror; [reflexivity | exact Ht |].
  left. reflexivity.
Qed.

Lemma count_cycles_negation_symmetric_witness :
  0 <= 10.0 /\
  count_cycles_zero_crossing (map Qopp [0; 11; -12; 13; -14]) 10.0 =
  count_cycles_zero_crossing [0; 11; -12; 13; -14] 10.0.
Proof.
  assert (Ht : 0 <= 10.0) by discriminate.
  split; [exact Ht |].
  exact (count_cycles_negation_symmetric [0; 11; -12; 13; -14] 10.0 Ht).
Defined.

(** C10 fails as stated: with threshold -10 the signal [0, 5, 20, 20] counts
    one cycle and its negation counts none. *)
Lemma count_cycles_negation_asymmetric_below_zero :
  count_cycles_zero_crossing [0; 5; 20; 20] (- (10.0)) = 1%Z /\
  count_cycles_zero_crossing (map Qopp [0; 5; 20; 20]) (- (10.0)) = 0%Z /\
  count_cycles_zero_crossing (map Qopp [0; 5; 20; 20]) (- (10.0)) <>
  count_cycles_zero_crossing [0; 5; 20; 20] (- (10.0)).
Proof.
  split; [reflexivity |]. split; [reflexivity |]. discriminate.
Qed.

End CycleCountFacts.

(** ** Theorems about the channel name normalizer *)

Section NormalizerFacts.
Import FileIO.
Open Scope string_scope.

(** The decimal rendering of an index has digits only. *)
Lemma string_of_uint_no_colon (d : Decimal.uint) :
  occurs ":" (NilEmpty.string_of_uint d) = false.
Proof. induction d; simpl; auto. Qed.

Lemma str_no_colon (n : nat) : occurs ":" (str n) = false.
Proof. apply string_of_uint_no_colon. Qed.

Lemma str_inj (i j : nat) : str i = str j -> i = j.
Proof.
  unfold str. intros H.
  apply (f_equal NilEmpty.uint_of_string) in H.
  rewrite !NilEmpty.usu in H. injection H as H.
  apply (f_equal Nat.of_uint) in H.
  now rewrite !Unsigned.of_to in H.
Qed.

(** Two strings free of colons that are each followed by a colon are equal
    as soon as the wholes are. *)
Lemma colon_prefix_inj (s1 : string) :
  forall s2 a b,
  occurs ":" s1 = false -> occurs ":" s2 = false ->
  s1 ++ String ":" a = s2 ++ String ":" b -> s1 = s2.
Proof.
  induction s1 as [|c s1 IH]; intros [|c2 s2] a b H1 H2 E; simpl in *.
  - reflexivity.
  - injection E as Ec _. subst c2. simpl in H2. discriminate.
  - injection E as Ec _. subst c. simpl in H1. discriminate.
  - injection E as Ec E. subst c2.
    apply orb_false_iff in H1. apply orb_false_iff in H2.
    f_equal. apply (IH s2 a b); tauto.
Qed.

Lemma normalize_shape (name unit : string) (index : nat) :
  exists rest, normalize name unit index = str index ++ String ":" rest.
Proof. unfold normalize. eexists. reflexivity. Qed.

(** The identifier determines the index it was built from. *)
Lemma normalize_index (name unit name' unit' : string) (i j : nat) :
  normalize name unit i = normalize name' unit' j -> i = j.
Proof.
  destruct (normalize_shape name unit i) as [a ->].
  destruct (normalize_shape name' unit' j) as [b ->].
  intros E. apply str_inj.
  apply (colon_prefix_inj (str i) (str j) a b); auto using str_no_colon.
Qed.

Lemma NoDup_map_of_injective {A B : Type} (f : A -> B) (l : list A) :
  (forall x y, f x = f y -> x = y) -> NoDup l -> NoDup (map f l).
Proof.
  intros Hinj Hl. induction Hl as [|a l Hnotin _ IH]; simpl; constructor.
  - intros Hin. apply in_map_iff in Hin. destruct Hin as (x & Hx & Hxl).
    apply Hinj in Hx. subst x. contradiction.
  - exact IH.
Qed.

Lemma header_names_NoDup (name unit : nat -> string) (channels : nat) :
  NoDup (header_names name unit channels).
Proof.
  unfold header_names. apply NoDup_map_of_injective; [| apply seq_NoDup].
  intros i j E. apply normalize_index in E. lia.
Qed.

(** An identifier is never the label of the time column. *)
Lemma normalize_has_colon (name unit : string) (index : nat) :
  occurs ":" (normalize name unit index) = true.
Proof.
  destruct (normalize_shape name unit index) as [rest ->].
  induction (str index) as [|c s IH]; simpl.
  - reflexivity.
  - rewrite IH. apply orb_true_r.
Qed.

(** The cleaning leaves no colon in a name or a unit. *)
Lemma sub_unwanted_no_colon (s : string) : occurs ":" (sub_unwanted s) = false.
Proof.
  induction s as [|c s IH]; simpl; [reflexivity |].
  destruct (keep c) eqn:K; [| exact IH].
  simpl. rewrite IH, orb_false_r.
  destruct (Ascii.eqb_spec c ":") as [-> |]; [discriminate K | reflexivity].
Qed.

(** C5, as the code has it.  For raw name "Force  X", raw unit "k N" and
    index 3 the normalizer returns "3:Force_X[k_N]": the cleaning, applied to
    name and unit independently, first strips the leading and trailing
    whitespace, then turns every run of whitespace into one underscore, then
    removes every character that is not alphanumeric, underscore, hyphen,
    period or slash.  The underscore that replaces the inner space of the
    unit is kept, and whitespace around a name leaves no underscore. *)
Theorem normalize_force_x :
  normalize "Force  X" "k N" 3 = "3:Force_X[k_N]" /\
  normalize "  Force  X " " k N  " 3 = "3:Force_X[k_N]" /\
  forall name unit index,
    normalize name unit index =
    str index ++ ":" ++
      (if String.eqb (sub_unwanted (sub_spaces (strip unit))) ""
       then sub_unwanted (sub_spaces (strip name))
       else sub_unwanted (sub_spaces (strip name)) ++
            "[" ++ sub_unwanted (sub_spaces (strip unit)) ++ "]").
Proof.
  split; [reflexivity |]. split; [reflexivity |].
  intros name unit index. unfold normalize.
  destruct (sub_unwanted (sub_spaces (strip unit))); reflexivity.
Qed.

(** C5 fails as stated: the result is not "3:Force_X[kN]", and the rule in
    the order the claim gives (collapse, then strip) is not the rule of the
    code (strip, then collapse). *)
Lemma force_x_unit_keeps_underscore :
  normalize "Force  X" "k N" 3 <> "3:Force_X[kN]" /\
  spec_clean "k N" = "k_N" /\
  spec_clean " a " = "_a_" /\
  sub_unwanted (sub_spaces (strip " a ")) = "a".
Proof.
  split; [discriminate |]. repeat split.
Qed.

End NormalizerFacts.

(** ** Theorems about the dispatchers *)

Section DispatchFacts.
Import FileIO.
Open Scope string_scope.

Lemma mem_In (x : string) (l : list string) : mem x l = true <-> In x l.
Proof.
  unfold mem. rewrite existsb_exists. split.
  - intros (y & Hy & E). apply String.eqb_eq in E. now subst.
  - intros H. exists x. split; [exact H | apply String.eqb_refl].
Qed.

Lemma mem_not_In (x : string) (l : list string) : mem x l = false <-> ~ In x l.
Proof.
  rewrite <- mem_In. destruct (mem x l); split; congruence.
Qed.

(** No extension is on both lists. *)
Lemma text_extension_not_lynx (ext : string) :
  In ext text_extensions -> mem ext lynx_extensions = false.
Proof.
  simpl. intros [<- | [<- | [<- | []]]]; reflexivity.
Qed.

End DispatchFacts.

(** ** Theorems about the text reader *)

Section TextReaderFacts.
Import FileIO.
Open Scope string_scope.

(** The reader raises its missing-column error exactly when no label is the
    string "time" itself. *)
Lemma read_text_file_missing_time_iff (w : world) (filename : string)
      (table : DataFrame) :
  read_csv w filename = Ok table ->
  read_text_file w filename = Raise (MissingTimeColumn filename) <->
  ~ In "time" (columns table).
Proof.
  intros Hcsv. unfold read_text_file. rewrite Hcsv. simpl.
  destruct (mem "time" (columns table)) eqn:M; simpl.
  - apply mem_In in M. split; [| contradiction].
    intros E. exfalso. revert E.
    match goal with |- context [getitem ?df "time"] =>
      destruct (getitem df "time") as [[|first rest]|] end;
      unfold MissingTimeColumn; discriminate.
  - apply mem_not_In in M. split; [intros _; exact M | reflexivity].
Qed.

(** In a frame with distinct labels a label selects its own column. *)
Lemma filter_label_unique (df : DataFrame) (label : string) (values : list Q) :
  NoDup (columns df) -> In (label, values) df ->
  filter (fun col => String.eqb (fst col) label) df = [(label, values)].
Proof.
  induction df as [|[l v] df IH]; intros Hnd Hin; [contradiction |].
  simpl in Hnd. inversion Hnd as [|? ? Hnotin Hnd']; subst.
  simpl. destruct (String.eqb_spec l label) as [-> | Hne].
  - destruct Hin as [E | Hin].
    + injection E as ->. f_equal.
      clear IH Hnd Hnd'. induction df as [|[l' v'] df IHdf]; [reflexivity |].
      simpl. destruct (String.eqb_spec l' label) as [-> | _].
      * exfalso. apply Hnotin. left. reflexivity.
      * apply IHdf. intros H. apply Hnotin. right. exact H.
    + exfalso. apply Hnotin. apply (in_map fst) in Hin. exact Hin.
  - destruct Hin as [E | Hin]; [congruence |]. now apply IH.
Qed.

Lemma select_own_columns (df part : DataFrame) :
  NoDup (columns df) -> incl part df -> select (columns part) df = part.
Proof.
  intros Hnd. induction part as [|[l v] part IH]; intros Hincl; [reflexivity |].
  unfold select in *. simpl.
  rewrite (filter_label_unique df l v Hnd) by (apply Hincl; left; reflexivity).
  simpl. f_equal. apply IH. intros c Hc. apply Hincl. right. exact Hc.
Qed.

(** A leading time column is moved behind the others, which keep their
    order. *)
Lemma select_moves_first_to_end (label : string) (values : list Q)
      (others : DataFrame) :
  NoDup (label :: columns others) ->
  select (columns others ++ [label])%list ((label, values) :: others) =
  (others ++ [(label, values)])%list.
Proof.
  intros Hnd.
  replace (columns others ++ [label])%list
    with (columns (others ++ [(label, values)])%list)
    by (unfold columns; rewrite map_app; reflexivity).
  apply select_own_columns; [exact Hnd |].
  intros c Hc. apply in_app_or in Hc. destruct Hc as [Hc | [<- | []]].
  - right. exact Hc.
  - left. reflexivity.
Qed.

(** What the reader does with the order of the columns: with "time" first
    the other columns come first, in their order, and "time" last; with
    "time" anywhere else the order is the one of the file. *)
Lemma read_text_file_column_order (w : world) (filename : string)
      (table : DataFrame) (d : file_data) :
  read_csv w filename = Ok table -> NoDup (columns table) ->
  read_text_file w filename = Ok d ->
  nomes_sinais d = columns (df_temp d) /\
  (forall values others,
      table = ("time", values) :: others ->
      df_temp d = (others ++ [("time", values)])%list) /\
  (hd "" (columns table) <> "time" -> df_temp d = table).
Proof.
  intros Hcsv Hnd. unfold read_text_file. rewrite Hcsv. simpl.
  destruct (mem "time" (columns table)); simpl; [| discriminate].
  set (df := match columns table with
             | [] => table
             | first :: others =>
                 if String.eqb first "time"
                 then select (others ++ ["time"])%list table else table
             end).
  assert (Hdf : (forall values others,
                    table = ("time", values) :: others ->
                    df = (others ++ [("time", values)])%list) /\
                (hd "" (columns table) <> "time" -> df = table)).
  { subst df. split.
    - intros values others ->. simpl.
      apply (select_moves_first_to_end "time" values others Hnd).
    - destruct table as [|[l v] others]; simpl; [reflexivity |].
      destruct (String.eqb_spec l "time"); [contradiction | reflexivity]. }
  clearbody df.
  destruct (getitem df "time") as [[|first rest]|]; try discriminate.
  intros E. injection E as <-. simpl. split; [reflexivity | exact Hdf].
Qed.

(** The duration the text reader returns is the last time minus the
    first. *)
Lemma read_text_file_duration (w : world) (filename : string) (d : file_data) :
  read_text_file w filename = Ok d -> duration d = [time_span d].
Proof.
  unfold read_text_file.
  destruct (read_csv w filename) as [table|]; simpl; [| discriminate].
  destruct (mem "time" (columns table)); simpl; [| discriminate].
  match goal with |- context [getitem ?x "time"] =>
    set (df := x); destruct (getitem df "time") as [[|first rest]|] eqn:G end;
    try discriminate.
  intros E. injection E as <-.
  unfold time_span, time_of. cbn [df_temp duration]. rewrite G. reflexivity.
Qed.

(** C2 at the failing inputs: a table whose time column is labelled "Time",
    or "TIME", is refused with the missing-column error, although the label
    lower-cased is "time" and the header reader drops it as the time
    column. *)
Theorem read_text_file_refuses_Time_header :
  read_text_file (Samples.world_of Samples.table_Time) "run.csv" =
    Raise (MissingTimeColumn "run.csv") /\
  read_text_file (Samples.world_of Samples.table_TIME) "run.csv" =
    Raise (MissingTimeColumn "run.csv") /\
  existsb (fun c => String.eqb (lower c) "time")
          (columns Samples.table_Time) = true /\
  read_text_headers (Samples.world_of Samples.table_Time) "run.csv" = Ok ["A"].
Proof. repeat split. Qed.

(** C3 at the failing input: with the time column in the middle, "A, time,
    B", the reader returns the columns in the order of the file, time not
    last. *)
Theorem read_text_file_keeps_middle_time :
  exists d,
    read_text_file (Samples.world_of Samples.table_time_middle) "run.csv" = Ok d /\
    nomes_sinais d = ["A"; "time"; "B"] /\
    columns (df_temp d) = ["A"; "time"; "B"] /\
    last (columns (df_temp d)) "" <> "time".
Proof.
  eexists. split; [reflexivity |]. repeat split. discriminate.
Qed.

End TextReaderFacts.

(** ** Theorems about the binary reader *)

Section LynxReaderFacts.
Import FileIO.
Open Scope string_scope.

(** After [df[label] = values] the column read back is [values]. *)
Lemma getitem_setitem (df : DataFrame) (label : string) (values : list Q) :
  getitem (setitem df label values) label = Some values.
Proof.
  unfold setitem, getitem.
  destruct (mem label (columns df)) eqn:M.
  - induction df as [|[l v] df IH]; [discriminate |].
    simpl in *. destruct (String.eqb_spec l label) as [-> | Hne].
    + simpl. rewrite String.eqb_refl. reflexivity.
    + simpl. destruct (String.eqb_spec l label); [contradiction |].
      apply IH. destruct (String.eqb_spec label l); [congruence | exact M].
  - induction df as [|[l v] df IH]; simpl in *.
    + rewrite String.eqb_refl. reflexivity.
    + apply orb_false_iff in M. destruct M as [Ml M].
      rewrite String.eqb_sym, Ml. apply IH. exact M.
Qed.

Lemma truediv_ok (a b q : Q) : truediv a b = Ok q -> ~ b == 0 /\ q = a / b.
Proof.
  unfold truediv. destruct (Qeq_bool b 0) eqn:E; [discriminate |].
  intros H. injection H as <-. split; [| reflexivity].
  now apply Qeq_bool_neq.
Qed.

(** What a successful call has computed. *)
Lemma read_lynx_file_ok (w : world) (filename : string) (d : file_data) :
  read_lynx_file w filename = Ok d ->
  let o := Dispatch_FileTS w filename in
  let n := nSamples o in
  let fs := SampleFreq o in
  ~ fs == 0 /\
  time_of d = linspace 0 (inject_Z (Z.of_nat n - 1) / fs) n /\
  duration d = [inject_Z (Z.of_nat n) / fs] /\
  Fs d = fs /\
  nomes_sinais d = columns (df_temp d).
Proof.
  intros H. cbv zeta. unfold read_lynx_file in H.
  set (o := Dispatch_FileTS w filename) in *.
  set (n := nSamples o) in *. set (fs := SampleFreq o) in *.
  destruct (OpenFile o); simpl in H; [| discriminate].
  destruct (read_channels o n 0 (nChannels o)) as [chans|]; simpl in H;
    [| discriminate].
  destruct (frame_of_channels chans) as [df|]; simpl in H; [| discriminate].
  destruct (truediv (inject_Z (Z.of_nat n - 1)) fs) as [stop|] eqn:E1;
    simpl in H; [| discriminate].
  destruct (truediv (inject_Z (Z.of_nat n)) fs) as [x|] eqn:E2;
    simpl in H; [| discriminate].
  apply truediv_ok in E1. destruct E1 as [Hfs ->].
  apply truediv_ok in E2. destruct E2 as [_ ->].
  injection H as <-. unfold time_of. cbn [df_temp duration Fs nomes_sinais].
  rewrite getitem_setitem. repeat split. exact Hfs.
Qed.

(** [linspace] for two points or more: the computed points but the last,
    then the end point. *)
Lemma linspace_unfold (start stop : Q) (m : nat) :
  linspace start stop (S (S m)) =
  (map (fun i : nat =>
          inject_Z (Z.of_nat i) * ((stop - start) / inject_Z (Z.of_nat (S m)))
          + start)
       (seq 0 (S m)) ++ [stop])%list.
Proof.
  unfold linspace.
  replace (Z.of_nat (S (S m)) - 1)%Z with (Z.of_nat (S m)) by lia.
  replace (0 <? Z.of_nat (S m))%Z with true by (symmetry; apply Z.ltb_lt; lia).
  replace (1 <? S (S m))%nat with true by (symmetry; apply Nat.ltb_lt; lia).
  rewrite (seq_S (S m) 0), map_app. simpl map at 2.
  rewrite removelast_last. reflexivity.
Qed.

Lemma linspace_length (start stop : Q) (num : nat) :
  List.length (linspace start stop num) = num.
Proof.
  destruct num as [|[|m]]; try reflexivity.
  rewrite linspace_unfold, length_app, length_map, length_seq. simpl. lia.
Qed.

Lemma Forall2_Qeq_map (f g : nat -> Q) (l : list nat) :
  (forall i, In i l -> f i == g i) -> Forall2 Qeq (map f l) (map g l).
Proof.
  induction l as [|i l IH]; intros H; simpl; constructor.
  - apply H. left. reflexivity.
  - apply IH. intros j Hj. apply H. right. exact Hj.
Qed.

Lemma inject_Z_succ_neq_0 (m : nat) : ~ inject_Z (Z.of_nat (S m)) == 0.
Proof. unfold Qeq. simpl. lia. Qed.

(** The points of the binary reader's time vector in closed form: point [i]
    is [i / fs]. *)
Lemma linspace_closed_form (fs : Q) (n : nat) :
  ~ fs == 0 ->
  Forall2 Qeq (linspace 0 (inject_Z (Z.of_nat n - 1) / fs) n)
              (map (fun i : nat => inject_Z (Z.of_nat i) / fs) (seq 0 n)).
Proof.
  intros Hfs. destruct n as [|[|m]].
  - constructor.
  - unfold linspace.
    change (Z.of_nat 1 - 1)%Z with 0%Z. change (0 <? 0)%Z with false.
    change (1 <? 1)%nat with false. cbn [seq map Z.of_nat].
    change (inject_Z 0) with 0.
    constructor; [| constructor]. field. exact Hfs.
  - rewrite linspace_unfold.
    replace (Z.of_nat (S (S m)) - 1)%Z with (Z.of_nat (S m)) by lia.
    rewrite (seq_S (S m) 0), map_app. apply Forall2_app.
    + apply Forall2_Qeq_map. intros i _. field.
      split; [exact Hfs | apply inject_Z_succ_neq_0].
    + constructor; [| constructor]. reflexivity.
Qed.

(** The span of that time vector is one sample period short of
    [n / fs]. *)
Lemma linspace_span (fs : Q) (n : nat) (first : Q) :
  ~ fs == 0 -> (1 <= n)%nat ->
  let time := linspace 0 (inject_Z (Z.of_nat n - 1) / fs) n in
  inject_Z (Z.of_nat n) / fs == (last time first - hd first time) + 1 / fs.
Proof.
  intros Hfs Hn. destruct n as [|[|m]]; [lia | |].
  - cbv zeta. unfold linspace.
    change (Z.of_nat 1 - 1)%Z with 0%Z. change (0 <? 0)%Z with false.
    change (1 <? 1)%nat with false. cbn [seq map Z.of_nat last hd].
    change (inject_Z 0) with 0. change (inject_Z (Z.of_nat 1)) with 1.
    field. exact Hfs.
  - cbv zeta. rewrite linspace_unfold. rewrite last_last.
    cbn [seq map app hd].
    replace (Z.of_nat (S (S m))) with (Z.of_nat (S m) + 1)%Z by lia.
    replace (Z.of_nat (S m) + 1 - 1)%Z with (Z.of_nat (S m)) by lia.
    rewrite inject_Z_plus. change (inject_Z (Z.of_nat 0)) with 0.
    change (inject_Z 1) with 1. field.
    split; [exact Hfs | apply inject_Z_succ_neq_0].
Qed.

(** The loop collects, channel by channel, the identifier of the channel and
    a buffer of [length] samples. *)
Lemma read_channels_ok (o : FileTS) (n : nat) :
  forall todo i chans,
  read_channels o n i todo = Ok chans ->
  columns chans =
    map (fun k => normalize (SnName o k) (SnUnit o k) (k + 1)) (seq i todo) /\
  Forall (fun col => List.length (snd col) = n) chans.
Proof.
  induction todo as [|todo IH]; intros i chans H; simpl in H.
  - injection H as <-. split; [reflexivity | constructor].
  - destruct (ReadBuffer o i 0%Z n) as [success buffer_data n_out|];
      [| discriminate].
    destruct success; simpl in H; [| discriminate].
    destruct (read_channels o n (S i) todo) as [rest|] eqn:R; simpl in H;
      [| discriminate].
    injection H as <-. destruct (IH (S i) rest R) as [Hnames Hlen].
    split.
    + simpl. f_equal. exact Hnames.
    + constructor; [| exact Hlen]. simpl. now rewrite length_map, length_seq.
Qed.

Lemma header_names_not_time (name unit : nat -> string) (channels : nat) :
  mem "time" (header_names name unit channels) = false.
Proof.
  apply mem_not_In. unfold header_names. intros Hin.
  apply in_map_iff in Hin. destruct Hin as (i & E & _).
  pose proof (normalize_has_colon (name i) (unit i) (i + 1)) as Hc.
  rewrite E in Hc. discriminate Hc.
Qed.

(** The frame the binary reader returns: the channels under their
    identifiers, in the order of the driver, then the time column; every
    column has [nSamples] entries. *)
Lemma read_lynx_file_frame (w : world) (filename : string) (d : file_data) :
  read_lynx_file w filename = Ok d ->
  let o := Dispatch_FileTS w filename in
  nomes_sinais d =
    (header_names (SnName o) (SnUnit o) (nChannels o) ++ ["time"])%list /\
  Forall (fun col => List.length (snd col) = nSamples o) (df_temp d).
Proof.
  intros H. cbv zeta. unfold read_lynx_file in H.
  set (o := Dispatch_FileTS w filename) in *.
  destruct (OpenFile o); simpl in H; [| discriminate].
  destruct (read_channels o (nSamples o) 0 (nChannels o)) as [chans|] eqn:R;
    simpl in H; [| discriminate].
  apply read_channels_ok in R. destruct R as [Hnames Hlen].
  fold (header_names (SnName o) (SnUnit o) (nChannels o)) in Hnames.
  destruct chans as [|col chans]; simpl in H; [discriminate |].
  destruct (truediv (inject_Z (Z.of_nat (nSamples o) - 1)) (SampleFreq o))
    as [stop|]; simpl in H; [| discriminate].
  destruct (truediv (inject_Z (Z.of_nat (nSamples o))) (SampleFreq o))
    as [x|]; simpl in H; [| discriminate].
  injection H as <-. cbn [nomes_sinais df_temp].
  unfold setitem. rewrite Hnames, header_names_not_time.
  split.
  - unfold columns. rewrite map_app. fold (columns (col :: chans)).
    rewrite Hnames. reflexivity.
  - apply Forall_app. split; [exact Hlen |].
    constructor; [| constructor]. apply linspace_length.
Qed.

(** The names of a data set read from a binary file are pairwise
    distinct. *)
Lemma read_lynx_file_names_NoDup (w : world) (filename : string)
      (d : file_data) :
  read_lynx_file w filename = Ok d -> NoDup (nomes_sinais d).
Proof.
  intros H. destruct (read_lynx_file_frame w filename d H) as [-> _].
  apply NoDup_app.
  - apply header_names_NoDup.
  - constructor; [intros [] | constructor].
  - intros a Ha [<- | []]. apply mem_In in Ha.
    rewrite header_names_not_time in Ha. discriminate.
Qed.

Lemma last_cons_indep (l : list Q) :
  forall a x y, last (a :: l) x = last (a :: l) y.
Proof.
  induction l as [|b l IH]; intros a x y; [reflexivity |].
  change (last (b :: l) x = last (b :: l) y). apply IH.
Qed.

Lemma time_span_nonempty (d : file_data) (first : Q) :
  time_of d <> [] ->
  time_span d = last (time_of d) first - hd first (time_of d).
Proof.
  unfold time_span. destruct (time_of d) as [|a l]; [congruence |].
  intros _. cbn [hd]. f_equal. apply last_cons_indep.
Qed.

(** C4 fails as stated: for five samples at 10 Hz the binary reader returns
    the duration 0.5 while its time vector runs from 0 to 0.4. *)
Lemma lynx_duration_exceeds_time_span :
  exists d,
    read_lynx_file (Samples.world_of []) "run.tem" = Ok d /\
    Forall2 Qeq (duration d) [0.5] /\
    time_span d == 0.4 /\
    ~ Forall2 Qeq (duration d) [time_span d].
Proof.
  eexists. split; [reflexivity |].
  split; [constructor; [close_Qeq | constructor] |].
  split; [close_Qeq |].
  intros H. inversion H as [|x y l l' E _]; subst.
  revert E. unfold Qeq. vm_compute. discriminate.
Qed.

(** C7.  The identifiers that the normalizer produces for the channels
    1..n of any list of (raw name, raw unit) pairs are pairwise distinct,
    whatever the names and units are, because the cleaning leaves no colon
    in name and unit and an identifier determines its index.  So the names
    collected by the header reader are distinct, and so are the names of a
    data set read from a binary file. *)
Theorem channel_identifiers_distinct :
  (forall pairs : list (string * string),
     NoDup (header_names (name_of pairs) (unit_of pairs) (List.length pairs))) /\
  (forall (name unit : nat -> string) (channels : nat),
     NoDup (header_names name unit channels)) /\
  (forall name unit name' unit' i j,
     normalize name unit i = normalize name' unit' j -> i = j) /\
  (forall s, occurs ":" (sub_unwanted s) = false) /\
  (forall w filename names,
     read_lynx_headers w filename = Ok names -> NoDup names) /\
  (forall w filename d,
     read_lynx_file w filename = Ok d -> NoDup (nomes_sinais d)).
Proof.
  split; [intros; apply header_names_NoDup |].
  split; [intros; apply header_names_NoDup |].
  split; [apply normalize_index |].
  split; [apply sub_unwanted_no_colon |].
  split; [| apply read_lynx_file_names_NoDup].
  intros w filename names H. unfold read_lynx_headers in H.
  injection H as <-. apply header_names_NoDup.
Qed.

Lemma channel_identifiers_distinct_witness :
  (normalize "Force  X" "kN" 3 = normalize " Force X " "kN" 3 /\ 3 = 3)%nat /\
  (exists names,
     read_lynx_headers (Samples.world_of []) "run.tem" = Ok names /\
     names = ["1:Force_X[k_N]"; "2:Force_X[k_N]"] /\ NoDup names) /\
  (exists d,
     read_lynx_file (Samples.world_of []) "run.tem" = Ok d /\
     nomes_sinais d = ["1:Force_X[k_N]"; "2:Force_X[k_N]"; "time"] /\
     NoDup (nomes_sinais d)).
Proof.
  split; [| split].
  - assert (E : normalize "Force  X" "kN" 3 = normalize " Force X " "kN" 3)
      by reflexivity.
    split; [exact E |].
    exact (proj1 (proj2 (proj2 channel_identifiers_distinct)) _ _ _ _ _ _ E).
  - eexists. split; [reflexivity |]. split; [reflexivity |].
    exact (proj1 (proj2 (proj2 (proj2 (proj2 channel_identifiers_distinct))))
             (Samples.world_of []) "run.tem" _ eq_refl).
  - eexists. split; [reflexivity |]. split; [reflexivity |].
    exact (proj2 (proj2 (proj2 (proj2 (proj2 channel_identifiers_distinct))))
             (Samples.world_of []) "run.tem" _ eq_refl).
Defined.

End LynxReaderFacts.

(** ** Duration and time vector of the binary reader *)

Section Binary64Facts.
Import FileIO.
Open Scope string_scope.




End Binary64Facts.

Section DurationAndTime.
Import FileIO PrimFloat.
Open Scope string_scope.

(** The ends of the time vector of a binary file of two samples or more:
    it starts at 0 and its last entry is the end point itself. *)
Lemma lynx_time_ends (w : world) (filename : string) (d : file_data) :
  read_lynx_file w filename = Ok d ->
  let o := Dispatch_FileTS w filename in
  (2 <= nSamples o)%nat ->
  last (time_of d) 0 = inject_Z (Z.of_nat (nSamples o) - 1) / SampleFreq o /\
  hd 0 (time_of d) == 0.
Proof.
  intros H o Hn.
  destruct (read_lynx_file_ok w filename d H) as (_ & Htime & _).
  cbv zeta in Htime. fold o in Htime. rewrite Htime.
  destruct (nSamples o) as [|[|m]]; try lia.
  rewrite linspace_unfold. split; [apply last_last |].
  cbn [seq map app hd]. change (inject_Z (Z.of_nat 0)) with 0. ring.
Qed.

(** C4, as the code has it.  The text reader returns as duration the last
    time minus the first.  The binary reader returns the number of samples
    divided by the sampling frequency, while its time vector runs from 0 to
    the number of samples less one, divided by the sampling frequency: for
    a file with a sample or more the duration is not the last time minus
    the first.  In binary64, 5 samples at 10 Hz have the duration 0.5 and a
    time vector from 0 to 0.4. *)
Theorem duration_of_readers (w : world) (filename : string) (d : file_data) :
  (read_text_file w filename = Ok d -> duration d = [time_span d]) /\
  (read_lynx_file w filename = Ok d ->
     let o := Dispatch_FileTS w filename in
     let n := nSamples o in
     let fs := SampleFreq o in
     duration d = [inject_Z (Z.of_nat n) / fs] /\
     time_of d = linspace 0 (inject_Z (Z.of_nat n - 1) / fs) n /\
     ((2 <= n)%nat ->
      last (time_of d) 0 = inject_Z (Z.of_nat n - 1) / fs /\
      hd 0 (time_of d) == 0) /\
     ((1 <= n)%nat -> ~ inject_Z (Z.of_nat n) / fs == time_span d)) /\
  (Binary64.lynx_duration 5 10 = Ok [0.5%float] /\
   exists time,
     Binary64.lynx_time 5 10 = Ok time /\
     hd 1%float time = 0%float /\ last time 1%float = 0.4%float).
Proof.
  split; [apply read_text_file_duration |].
  split; [| split; [reflexivity | eexists; repeat split]].
  intros H. cbv zeta.
  destruct (read_lynx_file_ok w filename d H) as (Hfs & Htime & Hdur & _).
  cbv zeta in Hfs, Htime, Hdur.
  split; [exact Hdur |]. split; [exact Htime |].
  split; [exact (lynx_time_ends w filename d H) |].
  intros Hn E.
  assert (Hne : time_of d <> []).
  { intros E0. apply (f_equal (@List.length Q)) in E0.
    rewrite Htime, linspace_length in E0. simpl in E0. lia. }
  pose proof (linspace_span (SampleFreq (Dispatch_FileTS w filename))
                (nSamples (Dispatch_FileTS w filename)) 0 Hfs Hn) as Hs.
  cbv zeta in Hs. rewrite <- Htime, <- (time_span_nonempty d 0 Hne) in Hs.
  rewrite E in Hs. apply Hfs.
  assert (Hinv : 1 / SampleFreq (Dispatch_FileTS w filename) == 0).
  { setoid_replace (1 / SampleFreq (Dispatch_FileTS w filename))
      with ((time_span d + 1 / SampleFreq (Dispatch_FileTS w filename))
            - time_span d) by ring.
    rewrite <- Hs. ring. }
  setoid_replace (SampleFreq (Dispatch_FileTS w filename))
    with (SampleFreq (Dispatch_FileTS w filename)
          * (SampleFreq (Dispatch_FileTS w filename)
             * (1 / SampleFreq (Dispatch_FileTS w filename))))
    by (field; exact Hfs).
  rewrite Hinv. ring.
Qed.

Lemma duration_of_readers_witness :
  (exists d,
     read_text_file (Samples.world_of Samples.table_time_first) "run.csv" = Ok d /\
     duration d = [time_span d]) /\
  (exists d,
     read_lynx_file (Samples.world_of []) "run.tem" = Ok d /\
     (1 <= nSamples Samples.two_channels)%nat /\
     ~ inject_Z (Z.of_nat (nSamples Samples.two_channels)) /
         SampleFreq Samples.two_channels == time_span d).
Proof.
  split.
  - eexists. split; [reflexivity |].
    exact (proj1 (duration_of_readers
                    (Samples.world_of Samples.table_time_first) "run.csv" _)
                 eq_refl).
  - eexists. split; [reflexivity |].
    assert (Hn : (1 <= nSamples Samples.two_channels)%nat) by (simpl; lia).
    split; [exact Hn |].
    exact (proj2 (proj2 (proj2 (proj1 (proj2
             (duration_of_readers (Samples.world_of []) "run.tem" _))
             eq_refl))) Hn).
Defined.




End DurationAndTime.

(** * Further properties *)

(** ** More about the cycle counter *)

Section CycleCountMore.
Import CycleCount Notions.

(** Each flip needs a sample of its own, and so does the entry into the
    first polarity. *)
Lemma fold_loop_flips_bound (t : Q) (signal : list Q) :
  forall lv k,
  (flips lv + (if (state lv =? 0)%Z then 0 else 1) <= k)%Z ->
  let lv' := fold_left (loop_body t) signal lv in
  (flips lv' + (if (state lv' =? 0)%Z then 0 else 1)
   <= k + Z.of_nat (List.length signal))%Z.
Proof.
  induction signal as [|v vs IH]; intros lv k Hk; cbv zeta.
  - simpl. lia.
  - cbn [fold_left List.length].
    replace (k + Z.of_nat (S (List.length vs)))%Z
      with ((k + 1) + Z.of_nat (List.length vs))%Z by lia.
    apply IH. unfold loop_body.
    destruct (state lv =? 0)%Z eqn:E0; [| destruct (state lv =? 1)%Z eqn:E1];
      repeat match goal with
             | |- context [if Qgtb ?a ?b then _ else _] => destruct (Qgtb a b)
             | |- context [if Qltb ?a ?b then _ else _] => destruct (Qltb a b)
             end;
      cbn [state flips]; try rewrite E0; try rewrite E1; simpl; lia.
Qed.

(** X1.  The count is never negative, and [n] samples hold at most
    [(n - 1) // 2] cycles: twice the count, plus one, fits in the number of
    samples of a signal that is not empty.  This holds for every threshold. *)
Theorem cycles_bounded_by_samples (signal : list Q) (threshold : Q) :
  (0 <= count_cycles_zero_crossing signal threshold)%Z /\
  (2 * count_cycles_zero_crossing signal threshold
   <= Z.max 0 (Z.of_nat (List.length signal) - 1))%Z.
Proof.
  unfold count_cycles_zero_crossing.
  pose proof (run_loop_flips_nonneg threshold signal) as Hpos.
  pose proof (fold_loop_flips_bound threshold signal (LoopVars 0 0) 0) as Hb.
  cbv zeta in Hb. fold (run_loop threshold signal) in Hb.
  specialize (Hb ltac:(simpl; lia)).
  set (lv := run_loop threshold signal) in *.
  split; [apply Z.div_pos; lia |].
  pose proof (Z.mul_div_le (flips lv) 2 ltac:(lia)) as Hd.
  destruct (state lv =? 0)%Z eqn:E.
  - (* still neutral: no flip at all *)
    assert (Hz : flips lv = 0%Z).
    { enough (H : forall s l, (state l = 0 -> flips l = 0)%Z ->
                  let l' := fold_left (loop_body threshold) s l in
                  (state l' = 0 -> flips l' = 0)%Z).
      { apply (H signal (LoopVars 0 0)); [reflexivity | now apply Z.eqb_eq]. }
      clear. induction s as [|v vs IH]; intros l Hl; cbv zeta; [exact Hl |].
      cbn [fold_left]. apply IH. unfold loop_body.
      destruct (state l =? 0)%Z eqn:E0; [| destruct (state l =? 1)%Z eqn:E1];
        repeat match goal with
               | |- context [if Qgtb ?a ?b then _ else _] => destruct (Qgtb a b)
               | |- context [if Qltb ?a ?b then _ else _] => destruct (Qltb a b)
               end;
        cbn [state flips]; try discriminate; try lia;
        intros H0; rewrite H0 in *; discriminate. }
    rewrite Hz. simpl. lia.
  - lia.
Qed.

(** A sample beyond neither threshold changes nothing, whatever the
    state. *)
Lemma loop_body_in_band (t : Q) (lv : loop_vars) (v : Q) :
  Qgtb v t || Qltb v (- t) = false -> loop_body t lv v = lv.
Proof.
  intros H. apply orb_false_iff in H. destruct H as [Hp Hn].
  unfold loop_body. rewrite Hp, Hn.
  destruct (state lv =? 0)%Z; [| destruct (state lv =? 1)%Z]; reflexivity.
Qed.

(** X2.  Hysteresis: the samples that lie beyond neither threshold have no
    effect.  Deleting all of them from a signal leaves the count as it is. *)
Theorem in_band_samples_ignored (signal : list Q) (threshold : Q) :
  count_cycles_zero_crossing
    (filter (fun v => Qgtb v threshold || Qltb v (- threshold)) signal)
    threshold
  = count_cycles_zero_crossing signal threshold.
Proof.
  unfold count_cycles_zero_crossing, run_loop. f_equal. f_equal.
  generalize (LoopVars 0 0).
  induction signal as [|v vs IH]; intros lv; [reflexivity |].
  cbn [filter fold_left].
  destruct (Qgtb v threshold || Qltb v (- threshold)) eqn:E.
  - cbn [fold_left]. apply IH.
  - rewrite (loop_body_in_band threshold lv v E). apply IH.
Qed.

(** X3.  More samples never lower the count: the count of a signal is at
    most the count of the signal continued by any other. *)
Theorem appending_never_lowers_count (signal more : list Q) (threshold : Q) :
  (count_cycles_zero_crossing signal threshold
   <= count_cycles_zero_crossing (signal ++ more) threshold)%Z.
Proof.
  unfold count_cycles_zero_crossing, run_loop.
  rewrite fold_left_app. apply Z.div_le_mono; [lia |].
  apply fold_loop_flips_mono.
Qed.

(** Cutting a sample off beyond the thresholds changes neither test of the
    loop. *)
Lemma clip_tests (m t v : Q) :
  t < m -> - t < m ->
  Qgtb (clip m v) t = Qgtb v t /\ Qltb (clip m v) (- t) = Qltb v (- t).
Proof.
  intros Hm Hm'. unfold clip.
  assert (Hneg : - m < t).
  { apply Qopp_lt_compat in Hm'. rewrite Qopp_involutive in Hm'. exact Hm'. }
  assert (Hneg' : - m < - t) by (now apply Qopp_lt_compat).
  destruct (Qgtb v m) eqn:Hhi.
  - apply Qgtb_lt in Hhi. split.
    + replace (Qgtb m t) with true by (symmetry; now apply Qgtb_lt).
      symmetry. apply Qgtb_lt. now apply Qlt_trans with m.
    + replace (Qltb m (- t)) with false.
      * symmetry. apply Qltb_nlt. intros H.
        apply (Qlt_irrefl m). apply Qlt_trans with v; [exact Hhi |].
        now apply Qlt_trans with (- t).
      * symmetry. apply Qltb_nlt. intros H.
        apply (Qlt_irrefl m). now apply Qlt_trans with (- t).
  - destruct (Qltb v (- m)) eqn:Hlo; [| split; reflexivity].
    apply Qltb_lt in Hlo. split.
    + replace (Qgtb (- m) t) with false.
      * symmetry. apply Qgtb_nlt. intros H.
        apply (Qlt_irrefl v). apply Qlt_trans with (- m); [exact Hlo |].
        now apply Qlt_trans with t.
      * symmetry. apply Qgtb_nlt. intros H.
        apply (Qlt_irrefl t). now apply Qlt_trans with (- m).
    + replace (Qltb (- m) (- t)) with true by (symmetry; now apply Qltb_lt).
      symmetry. apply Qltb_lt. now apply Qlt_trans with (- m).
Qed.

(** X4.  Saturation does not change the count: cutting every sample off at
    [m] and [-m], for a level [m] above the threshold and above its
    negation, leaves the count as it is.  Only comparisons are involved. *)
Theorem count_invariant_under_clipping (signal : list Q) (threshold m : Q) :
  threshold < m -> - threshold < m ->
  count_cycles_zero_crossing (map (clip m) signal) threshold
  = count_cycles_zero_crossing signal threshold.
Proof.
  intros Hm Hm'. unfold count_cycles_zero_crossing, run_loop. f_equal. f_equal.
  generalize (LoopVars 0 0).
  induction signal as [|v vs IH]; intros lv; [reflexivity |].
  cbn [map fold_left]. rewrite <- IH. f_equal.
  destruct (clip_tests m threshold v Hm Hm') as [Hp Hn].
  unfold loop_body. rewrite Hp, Hn. reflexivity.
Qed.

Lemma count_invariant_under_clipping_witness :
  10.0 < 12 /\ - (10.0) < 12 /\
  map (clip 12) [0; 11; -12; 13; -14; 50] = [0; 11; -12; 12; -12; 12] /\
  count_cycles_zero_crossing (map (clip 12) [0; 11; -12; 13; -14; 50]) 10.0
  = count_cycles_zero_crossing [0; 11; -12; 13; -14; 50] 10.0.
Proof.
  assert (Hm : 10.0 < 12) by reflexivity.
  assert (Hm' : - (10.0) < 12) by reflexivity.
  split; [exact Hm |]. split; [exact Hm' |]. split; [reflexivity |].
  exact (count_invariant_under_clipping [0; 11; -12; 13; -14; 50] 10.0 12 Hm Hm').
Defined.

(** With a threshold that is not negative, a sample met a second time in a
    row changes nothing. *)
Lemma loop_body_twice (t : Q) (lv : loop_vars) (v : Q) :
  0 <= t -> loop_body t (loop_body t lv v) v = loop_body t lv v.
Proof.
  intros Ht. unfold loop_body at 2 3.
  destruct (state lv =? 0)%Z eqn:E0; [| destruct (state lv =? 1)%Z eqn:E1].
  - destruct (Qgtb v t) eqn:Hp.
    + unfold loop_body. cbn [state flips]. simpl.
      destruct (Qltb v (- t)) eqn:Hn; [| reflexivity].
      exfalso. eapply not_both_sides; eassumption.
    + destruct (Qltb v (- t)) eqn:Hn.
      * unfold loop_body. cbn [state flips]. simpl. rewrite Hp. reflexivity.
      * unfold loop_body. rewrite E0, Hp, Hn. reflexivity.
  - destruct (Qltb v (- t)) eqn:Hn.
    + unfold loop_body. cbn [state flips]. simpl.
      destruct (Qgtb v t) eqn:Hp; [| reflexivity].
      exfalso. eapply not_both_sides; eassumption.
    + unfold loop_body. rewrite E0, E1, Hn. reflexivity.
  - destruct (Qgtb v t) eqn:Hp.
    + unfold loop_body. cbn [state flips]. simpl.
      destruct (Qltb v (- t)) eqn:Hn; [| reflexivity].
      exfalso. eapply not_both_sides; eassumption.
    + unfold loop_body. rewrite E0, E1, Hp. reflexivity.
Qed.

Lemma fold_loop_repeat (t : Q) (lv : loop_vars) (v : Q) (k : nat) :
  0 <= t ->
  fold_left (loop_body t) (repeat v (S k)) lv = loop_body t lv v.
Proof.
  intros Ht. induction k as [|k IH].
  - reflexivity.
  - change (repeat v (S (S k))) with (v :: repeat v (S k)).
    cbn [fold_left].
    change (fold_left (loop_body t) (repeat v (S k)) (loop_body t lv v)
            = loop_body t lv v).
    revert IH. generalize (S k). intros n _.
    induction n as [|n IHn]; [reflexivity |].
    cbn [repeat fold_left]. rewrite loop_body_twice by exact Ht. exact IHn.
Qed.

(** X5.  The count does not depend on how densely a signal is held: with a
    threshold that is not negative, writing every sample [k + 1] times in a
    row leaves the count unchanged. *)
Theorem count_invariant_under_repetition (signal : list Q) (threshold : Q)
        (k : nat) :
  0 <= threshold ->
  count_cycles_zero_crossing (flat_map (fun v => repeat v (S k)) signal) threshold
  = count_cycles_zero_crossing signal threshold.
Proof.
  intros Ht. unfold count_cycles_zero_crossing, run_loop. f_equal. f_equal.
  generalize (LoopVars 0 0).
  induction signal as [|v vs IH]; intros lv; [reflexivity |].
  cbn [flat_map]. rewrite fold_left_app, fold_loop_repeat by exact Ht.
  cbn [fold_left]. apply IH.
Qed.

Lemma count_invariant_under_repetition_witness :
  0 <= 10.0 /\
  count_cycles_zero_crossing
    (flat_map (fun v => repeat v 3) [0; 11; -12; 13; -14]) 10.0
  = count_cycles_zero_crossing [0; 11; -12; 13; -14] 10.0.
Proof.
  assert (Ht : 0 <= 10.0) by discriminate.
  split; [exact Ht |].
  exact (count_invariant_under_repetition [0; 11; -12; 13; -14] 10.0 2 Ht).
Defined.

End CycleCountMore.

Section CycleCountAlt.
Import CycleCount Notions.

Lemma fold_loop_swing (a t : Q) :
  t < a ->
  forall len s f,
  fold_left (loop_body t) (map (swing a) (seq (S s) len))
            (LoopVars (if Nat.even s then 1 else -1) f)
  = LoopVars (if Nat.even (s + len) then 1 else -1) (f + Z.of_nat len).
Proof.
  intros Ha. induction len as [|len IH]; intros s f.
  - rewrite Nat.add_0_r. simpl. f_equal. lia.
  - cbn [seq map fold_left].
    replace (loop_body t (LoopVars (if Nat.even s then 1 else -1) f)
                       (swing a (S s)))
      with (LoopVars (if Nat.even (S s) then 1 else -1) (f + 1)).
    + rewrite IH. f_equal; [| lia].
      replace (S s + len)%nat with (s + S len)%nat by lia. reflexivity.
    + unfold swing. rewrite Nat.even_succ, <- Nat.negb_even.
      assert (Hp : Qgtb a t = true) by (now apply Qgtb_lt).
      unfold loop_body. destruct (Nat.even s); cbn [negb state flips]; simpl.
      * rewrite Qltb_opp_l, Hp. reflexivity.
      * rewrite Hp. reflexivity.
Qed.

(** X6.  The bound on the count is reached: a signal of [m + 1] samples that
    swings between [a] and [-a], with [a] above the threshold, counts
    [m // 2] cycles, one flip for each sample after the first. *)
Theorem swinging_signal_count (a threshold : Q) (m : nat) :
  threshold < a ->
  count_cycles_zero_crossing (map (swing a) (seq 0 (S m))) threshold
  = (Z.of_nat m / 2)%Z.
Proof.
  intros Ha. unfold count_cycles_zero_crossing, run_loop.
  cbn [seq map fold_left].
  replace (loop_body threshold (LoopVars 0 0) (swing a 0))
    with (LoopVars (if Nat.even 0 then 1 else -1) 0).
  - rewrite (fold_loop_swing a threshold Ha m 0 0). reflexivity.
  - unfold swing, loop_body. simpl.
    replace (Qgtb a threshold) with true by (symmetry; now apply Qgtb_lt).
    reflexivity.
Qed.

Lemma swinging_signal_count_witness :
  10.0 < 11 /\
  count_cycles_zero_crossing (map (swing 11) (seq 0 6)) 10.0 = (5 / 2)%Z.
Proof.
  assert (Ha : 10.0 < 11) by reflexivity.
  split; [exact Ha |].
  exact (swinging_signal_count 11 10.0 5 Ha).
Defined.

End CycleCountAlt.

(** ** More about the normalizer *)

Section NormalizerMore.
Import FileIO Notions.
Open Scope string_scope.

Lemma every_char_app (p : ascii -> bool) (a b : string) :
  every_char p (a ++ b) = every_char p a && every_char p b.
Proof.
  induction a as [|c a IH]; simpl; [reflexivity |].
  rewrite IH. apply andb_assoc.
Qed.

Lemma every_char_weaken (p q : ascii -> bool) (s : string) :
  (forall c, p c = true -> q c = true) ->
  every_char p s = true -> every_char q s = true.
Proof.
  intros Hpq. induction s as [|c s IH]; simpl; [reflexivity |].
  intros H. apply andb_true_iff in H. destruct H as [Hc Hs].
  rewrite (Hpq c Hc). simpl. exact (IH Hs).
Qed.

Lemma sub_unwanted_kept (s : string) : every_char keep (sub_unwanted s) = true.
Proof.
  induction s as [|c s IH]; simpl; [reflexivity |].
  destruct (keep c) eqn:K; [| exact IH]. simpl. rewrite K. exact IH.
Qed.

Lemma str_ident (n : nat) : every_char ident_char (str n) = true.
Proof.
  unfold str. induction (Nat.to_uint n); simpl; auto.
Qed.

(** No character of an identifier is whitespace. *)
Lemma ident_char_not_space (c : ascii) : ident_char c = true -> isspace c = false.
Proof.
  destruct c as [[] [] [] [] [] [] [] []]; vm_compute; congruence.
Qed.

Lemma keep_ident (c : ascii) : keep c = true -> ident_char c = true.
Proof. unfold ident_char. intros ->. reflexivity. Qed.

(** X7.  A channel identifier is made of word characters, hyphens, periods,
    slashes, and the colon and brackets of the format: whatever the driver
    reports as name and unit, the identifier holds no whitespace and no
    other punctuation. *)
Theorem identifier_alphabet (name unit : string) (index : nat) :
  every_char ident_char (normalize name unit index) = true /\
  every_char (fun c => negb (isspace c)) (normalize name unit index) = true.
Proof.
  assert (H : every_char ident_char (normalize name unit index) = true).
  { unfold normalize.
    pose proof (every_char_weaken keep ident_char _ keep_ident
                  (sub_unwanted_kept (sub_spaces (strip name)))) as Hr.
    pose proof (every_char_weaken keep ident_char _ keep_ident
                  (sub_unwanted_kept (sub_spaces (strip unit)))) as Hu.
    rewrite every_char_app, str_ident. cbn [andb].
    destruct (sub_unwanted (sub_spaces (strip unit))) as [|c u].
    - cbn [append every_char].
      replace (ident_char ":") with true by reflexivity. exact Hr.
    - cbn [append every_char].
      replace (ident_char ":") with true by reflexivity. cbn [andb].
      rewrite every_char_app, Hr. cbn [andb append every_char].
      replace (ident_char "[") with true by reflexivity. cbn [andb].
      cbn [every_char] in Hu. apply andb_true_iff in Hu.
      destruct Hu as [Hc Hu]. rewrite Hc. cbn [andb].
      rewrite every_char_app, Hu. reflexivity. }
  split; [exact H |].
  apply (every_char_weaken ident_char); [| exact H].
  intros c Hc. now rewrite (ident_char_not_space c Hc).
Qed.

Lemma keep_not_space (c : ascii) : keep c = true -> isspace c = false.
Proof. intros K. apply ident_char_not_space, keep_ident, K. Qed.

Lemma lstrip_kept (s : string) : every_char keep s = true -> lstrip s = s.
Proof.
  destruct s as [|c s]; simpl; [reflexivity |].
  intros H. apply andb_true_iff in H. destruct H as [K _].
  now rewrite (keep_not_space c K).
Qed.

Lemma rstrip_kept (s : string) : every_char keep s = true -> rstrip s = s.
Proof.
  induction s as [|c s IH]; simpl; [reflexivity |].
  intros H. apply andb_true_iff in H. destruct H as [K Hs].
  rewrite (IH Hs). destruct s; [| reflexivity].
  now rewrite (keep_not_space c K).
Qed.

Lemma sub_spaces_from_kept (s : string) :
  forall in_run, every_char keep s = true -> sub_spaces_from in_run s = s.
Proof.
  induction s as [|c s IH]; intros in_run; simpl; [reflexivity |].
  intros H. apply andb_true_iff in H. destruct H as [K Hs].
  rewrite (keep_not_space c K). f_equal. now apply IH.
Qed.

Lemma sub_unwanted_fixed (s : string) :
  every_char keep s = true -> sub_unwanted s = s.
Proof.
  induction s as [|c s IH]; simpl; [reflexivity |].
  intros H. apply andb_true_iff in H. destruct H as [K Hs].
  rewrite K. f_equal. now apply IH.
Qed.

Lemma clean_kept (s : string) : every_char keep s = true -> clean s = s.
Proof.
  intros H. unfold clean, strip.
  rewrite (lstrip_kept s H), (rstrip_kept s H).
  unfold sub_spaces. rewrite (sub_spaces_from_kept s false H).
  now apply sub_unwanted_fixed.
Qed.

(** X8.  The cleaning is idempotent: a name and a unit that were cleaned
    once come out of the normalizer as they went in, so the identifier built
    from cleaned strings is the one built from the raw strings. *)
Theorem normalize_of_cleaned (name unit : string) (index : nat) :
  clean (clean name) = clean name /\
  normalize (clean name) (clean unit) index = normalize name unit index.
Proof.
  assert (Hc : forall s, clean (clean s) = clean s).
  { intros s. apply clean_kept. apply sub_unwanted_kept. }
  split; [apply Hc |].
  unfold normalize. fold (clean (clean name)) (clean (clean unit)).
  rewrite !Hc. reflexivity.
Qed.

End NormalizerMore.

(** ** More about the dispatchers *)

Section DispatchMore.
Import FileIO Notions.
Open Scope string_scope.

Lemma rfind_from_absent (c : ascii) (p : string) :
  forall i, occurs c p = false -> rfind_from c p i = (-1)%Z.
Proof.
  induction p as [|a p IH]; intros i H; simpl in *; [reflexivity |].
  apply orb_false_iff in H. destruct H as [Ha Hp].
  rewrite (IH (i + 1)%Z Hp), Ha. reflexivity.
Qed.

Lemma rfind_from_range (c : ascii) (p : string) :
  forall i, (0 <= i)%Z ->
  rfind_from c p i = (-1)%Z \/
  (i <= rfind_from c p i < i + Z.of_nat (length p))%Z.
Proof.
  induction p as [|a p IH]; intros i Hi; simpl rfind_from; [left; reflexivity |].
  cbn [length]. destruct (IH (i + 1)%Z ltac:(lia)) as [E | R].
  - rewrite E. simpl. destruct (Ascii.eqb a c); [right; lia | left; reflexivity].
  - destruct (0 <=? rfind_from c p (i + 1))%Z eqn:E; [right; lia |].
    apply Z.leb_gt in E. lia.
Qed.

Lemma rfind_from_app (c : ascii) (a b : string) :
  forall i, (0 <= i)%Z ->
  rfind_from c (a ++ b) i =
  if (0 <=? rfind_from c b (i + Z.of_nat (length a)))%Z
  then rfind_from c b (i + Z.of_nat (length a))
  else rfind_from c a i.
Proof.
  induction a as [|x a IH]; intros i Hi.
  - simpl. rewrite Z.add_0_r.
    destruct (0 <=? rfind_from c b i)%Z eqn:E; [reflexivity |].
    destruct (rfind_from_range c b i Hi) as [-> | R]; [reflexivity |].
    apply Z.leb_gt in E. lia.
  - cbn [append rfind_from length]. rewrite (IH (i + 1)%Z) by lia.
    replace (i + 1 + Z.of_nat (length a))%Z
      with (i + Z.of_nat (S (length a)))%Z by lia.
    destruct (0 <=? rfind_from c b (i + Z.of_nat (S (length a))))%Z eqn:E.
    + rewrite E. reflexivity.
    + reflexivity.
Qed.

Lemma substring_all (s : string) : substring 0 (length s) s = s.
Proof. induction s as [|c s IH]; simpl; [reflexivity | now rewrite IH]. Qed.

Lemma substring_skip (a b : string) :
  substring (length a) (length b) (a ++ b) = b.
Proof. induction a as [|c a IH]; simpl; [apply substring_all | exact IH]. Qed.

Lemma substring_take (a b : string) : substring 0 (length a) (a ++ b) = a.
Proof.
  induction a as [|c a IH]; simpl.
  - destruct b; reflexivity.
  - now rewrite IH.
Qed.

Lemma length_append (a b : string) : length (a ++ b) = (length a + length b)%nat.
Proof. induction a as [|c a IH]; simpl; [reflexivity | now rewrite IH]. Qed.

Lemma append_snoc (a : string) (x : ascii) (b : string) :
  (a ++ String x EmptyString) ++ b = a ++ String x b.
Proof. induction a as [|c a IH]; simpl; [reflexivity | now rewrite IH]. Qed.

Lemma get_after (a : string) (x : ascii) (b : string) :
  get (length a) (a ++ String x b) = Some x.
Proof. induction a as [|c a IH]; simpl; [reflexivity | exact IH]. Qed.

Lemma occurs_sep (c : ascii) (s : string) :
  every_char (fun a => negb (is_sep a)) s = true ->
  is_sep c = true -> occurs c s = false.
Proof.
  intros Hs Hc. induction s as [|a s IH]; simpl in *; [reflexivity |].
  apply andb_true_iff in Hs. destruct Hs as [Ha Hs]. rewrite (IH Hs).
  destruct (Ascii.eqb_spec a c) as [-> |]; [| reflexivity].
  rewrite Hc in Ha. discriminate.
Qed.

(** Where [splitext] cuts a path whose last dot follows a character of the
    file name and is followed by neither a dot nor a separator. *)
Lemma splitext_cut (front : string) (x : ascii) (e : string) :
  Ascii.eqb x "." = false -> is_sep x = false ->
  occurs "." e = false ->
  every_char (fun a => negb (is_sep a)) e = true ->
  splitext (front ++ String x (String "." e))
  = (front ++ String x EmptyString, String "." e).
Proof.
  intros Hx Hsep Hdot He.
  set (p := front ++ String x (String "." e)).
  set (n := Z.of_nat (length front)).
  assert (Hn : (0 <= n)%Z) by (subst n; lia).
  assert (Hrest : forall c, is_sep c = true ->
                  rfind_from c (String x (String "." e)) n = (-1)%Z).
  { intros c Hc. apply rfind_from_absent. cbn [occurs].
    rewrite (occurs_sep c e He Hc).
    assert (E1 : Ascii.eqb x c = false).
    { destruct (Ascii.eqb_spec x c) as [-> |]; [| reflexivity].
      rewrite Hc in Hsep. discriminate. }
    assert (E2 : Ascii.eqb "." c = false).
    { destruct (Ascii.eqb_spec "."%char c) as [<- |]; [| reflexivity].
      discriminate Hc. }
    rewrite E1, E2. reflexivity. }
  assert (Hsepidx : forall c, is_sep c = true -> (-1 <= rfind c p < n)%Z).
  { intros c Hc. unfold rfind, p. rewrite rfind_from_app by lia.
    rewrite Z.add_0_l. fold n. rewrite (Hrest c Hc). simpl.
    destruct (rfind_from_range c front 0 ltac:(lia)) as [-> | R]; subst n; lia. }
  assert (Hdotidx : rfind "." p = (n + 1)%Z).
  { unfold rfind, p. rewrite rfind_from_app by lia.
    rewrite Z.add_0_l. fold n. cbn [rfind_from].
    rewrite (rfind_from_absent "." e (n + 1 + 1) Hdot).
    replace (0 <=? -1)%Z with false by reflexivity.
    replace (Ascii.eqb "." ".") with true by reflexivity.
    replace (0 <=? n + 1)%Z with true by (symmetry; apply Z.leb_le; lia).
    replace (Ascii.eqb x ".") with false by (symmetry; exact Hx).
    replace (0 <=? n + 1)%Z with true by (symmetry; apply Z.leb_le; lia).
    reflexivity. }
  pose proof (Hsepidx backslash ltac:(reflexivity)) as Hb.
  pose proof (Hsepidx "/"%char ltac:(reflexivity)) as Hs.
  unfold splitext. fold p. rewrite Hdotidx.
  set (sepIndex := Z.max (rfind backslash p) (rfind "/" p)) in *.
  assert (Hsi : (-1 <= sepIndex < n)%Z) by (subst sepIndex; lia).
  replace (sepIndex <? n + 1)%Z with true by (symmetry; apply Z.ltb_lt; lia).
  assert (Hnd : has_non_dot p (sepIndex + 1) (n + 1) = true).
  { unfold has_non_dot. apply existsb_exists. exists (length front). split.
    - apply in_seq. subst n. lia.
    - unfold p. rewrite get_after, Hx. reflexivity. }
  rewrite Hnd. cbn [andb]. unfold slice_to, slice_from. f_equal.
  - replace (Z.to_nat (n + 1)) with (length (front ++ String x EmptyString))
      by (rewrite length_append; simpl; subst n; lia).
    unfold p. replace (front ++ String x (String "." e))
      with ((front ++ String x EmptyString) ++ String "." e)
      by apply append_snoc.
    apply substring_take.
  - replace (Z.to_nat (n + 1)) with (length (front ++ String x EmptyString))
      by (rewrite length_append; simpl; subst n; lia).
    unfold p. replace (front ++ String x (String "." e))
      with ((front ++ String x EmptyString) ++ String "." e)
      by apply append_snoc.
    rewrite (length_append (front ++ String x EmptyString)).
    replace (length (front ++ String x EmptyString) + length (String "." e)
             - length (front ++ String x EmptyString))%nat
      with (length (String "." e)) by lia.
    apply substring_skip.
Qed.

(** X9.  A path with no dot in it has no extension, and both dispatchers
    refuse it with an empty extension in the message. *)
Theorem path_without_dot_unsupported (w : world) (filename : string) :
  occurs "." filename = false ->
  read_file_data w filename = Raise (UnsupportedFormat "") /\
  read_channel_headers w filename = Raise (UnsupportedFormat "").
Proof.
  intros H.
  assert (E : splitext filename = (filename, "")).
  { unfold splitext, rfind. rewrite (rfind_from_absent "." filename 0 H).
    destruct (rfind_from_range backslash filename 0 ltac:(lia)) as [Eb | Rb];
      destruct (rfind_from_range "/" filename 0 ltac:(lia)) as [Es | Rs];
      replace (Z.max (rfind_from backslash filename 0)
                     (rfind_from "/" filename 0) <? -1)%Z
        with false by (symmetry; apply Z.ltb_ge; lia);
      reflexivity. }
  unfold read_file_data, read_channel_headers. rewrite E. split; reflexivity.
Qed.

Lemma path_without_dot_unsupported_witness :
  occurs "." "C:\runs\day1" = false /\
  read_file_data (Samples.world_of []) "C:\runs\day1" = Raise (UnsupportedFormat "") /\
  read_channel_headers (Samples.world_of []) "C:\runs\day1" =
  Raise (UnsupportedFormat "").
Proof.
  assert (H : occurs "." "C:\runs\day1" = false) by reflexivity.
  split; [exact H |].
  exact (path_without_dot_unsupported (Samples.world_of []) "C:\runs\day1" H).
Defined.

(** X10.  Only the text after the last dot decides the reader.  When that
    dot follows a character of the file name and the text after it, in any
    mix of upper and lower case, is "tem", "ltx" or "ltd", the path is read
    by the binary reader, and when it is "csv", "txt" or "asc", by the text
    reader, whatever directories and dots come before. *)
Theorem route_by_last_extension (w : world) (front : string) (x : ascii)
        (e : string) :
  Ascii.eqb x "." = false -> is_sep x = false ->
  occurs "." e = false ->
  every_char (fun a => negb (is_sep a)) e = true ->
  let filename := front ++ String x (String "." e) in
  (In (lower e) ["tem"; "ltx"; "ltd"] ->
     read_file_data w filename = read_lynx_file w filename /\
     read_channel_headers w filename = read_lynx_headers w filename) /\
  (In (lower e) ["csv"; "txt"; "asc"] ->
     read_file_data w filename = read_text_file w filename /\
     read_channel_headers w filename = read_text_headers w filename).
Proof.
  intros Hx Hsep Hdot He filename.
  assert (E : lower (snd (splitext filename)) = String "." (lower e)).
  { unfold filename. rewrite (splitext_cut front x e Hx Hsep Hdot He).
    reflexivity. }
  unfold read_file_data, read_channel_headers. rewrite E.
  split; intros Hin; simpl in Hin;
    destruct Hin as [<- | [<- | [<- | []]]]; split; reflexivity.
Qed.

Lemma route_by_last_extension_witness :
  read_file_data (Samples.world_of []) "C:\runs.2024\Day.1.TeM"
  = read_lynx_file (Samples.world_of []) "C:\runs.2024\Day.1.TeM" /\
  read_channel_headers (Samples.world_of Samples.table_time_first) "runs/day1.CSV"
  = read_text_headers (Samples.world_of Samples.table_time_first) "runs/day1.CSV".
Proof.
  split.
  - exact (proj1 (proj1 (route_by_last_extension (Samples.world_of [])
                           "C:\runs.2024\Day." "1" "TeM"
                           eq_refl eq_refl eq_refl eq_refl)
                        (or_introl eq_refl))).
  - exact (proj2 (proj2 (route_by_last_extension
                           (Samples.world_of Samples.table_time_first)
                           "runs/day" "1" "CSV"
                           eq_refl eq_refl eq_refl eq_refl)
                        (or_introl eq_refl))).
Defined.

End DispatchMore.

Section DispatchClaim.
Import FileIO Notions.
Open Scope string_scope.

(** C8.  Both dispatchers look at the extension of the path, lower-cased:
    ".tem", ".ltx" and ".ltd" go to the binary reader, ".csv", ".txt" and
    ".asc" to the text reader, and with any other extension both raise the
    value error "Unsupported file type: " followed by that extension,
    whatever the files and the driver hold.  The extension is the text from
    the last dot of the file name on, so a path that ends in a dot and
    letters in any mix of cases is routed by those letters. *)
Theorem dispatch_by_extension (w : world) (filename : string) :
  let ext := lower (snd (splitext filename)) in
  (In ext [".tem"; ".ltx"; ".ltd"] ->
     read_file_data w filename = read_lynx_file w filename /\
     read_channel_headers w filename = read_lynx_headers w filename) /\
  (In ext [".csv"; ".txt"; ".asc"] ->
     read_file_data w filename = read_text_file w filename /\
     read_channel_headers w filename = read_text_headers w filename) /\
  (~ In ext [".tem"; ".ltx"; ".ltd"; ".csv"; ".txt"; ".asc"] ->
     read_file_data w filename
     = Raise (ValueError ("Unsupported file type: " ++ ext)) /\
     read_channel_headers w filename
     = Raise (ValueError ("Unsupported file type: " ++ ext))) /\
  (forall front x e,
     filename = front ++ String x (String "." e) ->
     Ascii.eqb x "." = false -> is_sep x = false ->
     occurs "." e = false ->
     every_char (fun a => negb (is_sep a)) e = true ->
     ext = String "." (lower e)) /\
  (occurs "." filename = false -> ext = "").
Proof.
  intros ext. unfold read_file_data, read_channel_headers. fold ext.
  split; [| split; [| split; [| split]]].
  - intros H. simpl in H.
    destruct H as [<- | [<- | [<- | []]]]; split; reflexivity.
  - intros H. simpl in H.
    destruct H as [<- | [<- | [<- | []]]]; split; reflexivity.
  - intros H.
    assert (H1 : mem ext lynx_extensions = false).
    { apply mem_not_In. intros Hin. apply H. simpl in *. tauto. }
    assert (H2 : mem ext text_extensions = false).
    { apply mem_not_In. intros Hin. apply H. simpl in *. tauto. }
    rewrite H1, H2. split; reflexivity.
  - intros front x e -> Hx Hsep Hdot He. unfold ext.
    rewrite (splitext_cut front x e Hx Hsep Hdot He). reflexivity.
  - intros H. unfold ext, splitext, rfind.
    rewrite (rfind_from_absent "." filename 0 H).
    destruct (rfind_from_range backslash filename 0 ltac:(lia)) as [Eb | Rb];
      destruct (rfind_from_range "/" filename 0 ltac:(lia)) as [Es | Rs];
      replace (Z.max (rfind_from backslash filename 0)
                     (rfind_from "/" filename 0) <? -1)%Z
        with false by (symmetry; apply Z.ltb_ge; lia);
      reflexivity.
Qed.

Lemma dispatch_by_extension_witness :
  (In (lower (snd (splitext "C:\runs\Day1.TEM"))) [".tem"; ".ltx"; ".ltd"] /\
   read_file_data (Samples.world_of []) "C:\runs\Day1.TEM" =
   read_lynx_file (Samples.world_of []) "C:\runs\Day1.TEM") /\
  (In (lower (snd (splitext "runs/day1.Csv"))) [".csv"; ".txt"; ".asc"] /\
   read_channel_headers (Samples.world_of Samples.table_time_first) "runs/day1.Csv" =
   read_text_headers (Samples.world_of Samples.table_time_first) "runs/day1.Csv") /\
  (~ In (lower (snd (splitext "day1.XYZ")))
        [".tem"; ".ltx"; ".ltd"; ".csv"; ".txt"; ".asc"] /\
   read_file_data (Samples.world_of []) "day1.XYZ"
   = Raise (ValueError "Unsupported file type: .xyz") /\
   read_channel_headers (Samples.world_of []) "day1.XYZ"
   = Raise (ValueError "Unsupported file type: .xyz")) /\
  lower (snd (splitext "C:\runs.2024\Day.1.TeM")) = ".tem".
Proof.
  assert (H1 : In (lower (snd (splitext "C:\runs\Day1.TEM")))
                  [".tem"; ".ltx"; ".ltd"]) by (simpl; auto).
  assert (H2 : In (lower (snd (splitext "runs/day1.Csv")))
                  [".csv"; ".txt"; ".asc"]) by (simpl; auto).
  assert (H3 : ~ In (lower (snd (splitext "day1.XYZ")))
                    [".tem"; ".ltx"; ".ltd"; ".csv"; ".txt"; ".asc"])
    by (simpl; intuition discriminate).
  split; [split; [exact H1 |] | split; [split; [exact H2 |] | split]].
  - exact (proj1 (proj1 (dispatch_by_extension
                           (Samples.world_of []) "C:\runs\Day1.TEM") H1)).
  - exact (proj2 (proj1 (proj2 (dispatch_by_extension
                           (Samples.world_of Samples.table_time_first)
                           "runs/day1.Csv")) H2)).
  - split; [exact H3 |].
    exact (proj1 (proj2 (proj2 (dispatch_by_extension
                           (Samples.world_of []) "day1.XYZ"))) H3).
  - exact (proj1 (proj2 (proj2 (proj2 (dispatch_by_extension
                           (Samples.world_of []) "C:\runs.2024\Day.1.TeM"))))
                 "C:\runs.2024\Day." "1"%char "TeM"
                 eq_refl eq_refl eq_refl eq_refl eq_refl).
Defined.

End DispatchClaim.

(** ** More about the text reader *)

Section TextReaderMore.
Import FileIO Notions.
Open Scope string_scope.

Lemma getitem_unique (df : DataFrame) (label : string) (values : list Q) :
  NoDup (columns df) -> In (label, values) df -> getitem df label = Some values.
Proof.
  unfold getitem.
  induction df as [|[l v] df IH]; intros Hnd Hin; [contradiction |].
  simpl in Hnd. inversion Hnd as [|? ? Hnotin Hnd']; subst.
  simpl. destruct (String.eqb_spec l label) as [-> | Hne].
  - destruct Hin as [E | Hin]; [now injection E as -> |].
    exfalso. apply Hnotin. exact (in_map fst _ _ Hin).
  - destruct Hin as [E | Hin]; [congruence |]. now apply IH.
Qed.

Lemma getitem_Some_In (df : DataFrame) (label : string) (values : list Q) :
  getitem df label = Some values -> In (label, values) df.
Proof.
  unfold getitem. induction df as [|[l v] df IH]; simpl; [discriminate |].
  destruct (String.eqb_spec l label) as [-> | Hne]; simpl.
  - intros E. injection E as ->. left. reflexivity.
  - intros E. right. now apply IH.
Qed.

(** The frame the reader goes on with after looking for the time column. *)
Lemma read_text_file_unfold (w : world) (filename : string) (table : DataFrame) :
  read_csv w filename = Ok table -> In "time" (columns table) ->
  exists df,
    (match table with
     | (first, values) :: others =>
         if String.eqb first "time"
         then df = select (columns others ++ ["time"])%list table
         else df = table
     | [] => df = table
     end) /\
    read_text_file w filename =
    match getitem df "time" with
    | None => Raise (KeyError "time")
    | Some [] => Raise (IndexError "single positional indexer is out-of-bounds")
    | Some (first :: rest) =>
        let d := last (first :: rest) first - first in
        Ok (FileData df [d] (columns df)
              (if negb (Qeq_bool d 0)
               then inject_Z (Z.of_nat (List.length (first :: rest)) - 1) / d
               else 0))
    end.
Proof.
  intros Hcsv Hin. apply mem_In in Hin.
  unfold read_text_file. rewrite Hcsv. cbn [bind]. rewrite Hin. cbn [negb].
  destruct table as [|[first values] others].
  - exists []. split; reflexivity.
  - cbn [columns map fst]. fold (columns others).
    destruct (String.eqb first "time").
    + eexists. split; [reflexivity |].
      destruct (getitem _ "time") as [[|a l]|]; reflexivity.
    + eexists. split; [reflexivity |].
      destruct (getitem _ "time") as [[|a l]|]; reflexivity.
Qed.

(** With distinct labels, the frame the reader goes on with is the table
    or, when the time column leads, the table with that column moved to the
    end. *)
Lemma reordered_frame (table df : DataFrame) :
  NoDup (columns table) ->
  (match table with
   | (first, values) :: others =>
       if String.eqb first "time"
       then df = select (columns others ++ ["time"])%list table
       else df = table
   | [] => df = table
   end) ->
  (exists values others,
      table = ("time", values) :: others /\
      df = (others ++ [("time", values)])%list) \/
  (hd "" (columns table) <> "time" /\ df = table).
Proof.
  intros Hnd H. destruct table as [|[first values] others].
  - right. split; [discriminate | exact H].
  - destruct (String.eqb_spec first "time") as [-> | Hne].
    + left. exists values, others. split; [reflexivity |].
      rewrite H. exact (select_moves_first_to_end "time" values others Hnd).
    + right. split; [exact Hne | exact H].
Qed.

Lemma reordered_frame_perm (table df : DataFrame) :
  (exists values others,
      table = ("time", values) :: others /\
      df = (others ++ [("time", values)])%list) \/
  (hd "" (columns table) <> "time" /\ df = table) ->
  Permutation df table.
Proof.
  intros [(values & others & -> & ->) | [_ ->]].
  - apply Permutation_sym. apply Permutation_cons_append.
  - apply Permutation_refl.
Qed.

(** X11.  Every outcome of the text reader on a parsed table with distinct
    labels.  A failure of the parser is passed on as it is.  Without a
    column labelled exactly "time" the reader raises its missing-column
    error.  With a time column that has no rows it raises an index error.
    In every other case it returns a data set, whose time vector is the
    time column of the table. *)
Theorem text_reader_outcomes (w : world) (filename : string) :
  (forall e, read_csv w filename = Raise e ->
             read_text_file w filename = Raise e) /\
  (forall table,
     read_csv w filename = Ok table -> NoDup (columns table) ->
     (~ In "time" (columns table) ->
        read_text_file w filename = Raise (MissingTimeColumn filename)) /\
     (In ("time", []) table ->
        read_text_file w filename =
        Raise (IndexError "single positional indexer is out-of-bounds")) /\
     (forall first rest,
        In ("time", first :: rest) table ->
        exists d, read_text_file w filename = Ok d /\
                  time_of d = first :: rest)).
Proof.
  split.
  { intros e H. unfold read_text_file. rewrite H. reflexivity. }
  intros table Hcsv Hnd.
  assert (Hgo : forall tcol, In ("time", tcol) table ->
            exists df, getitem df "time" = Some tcol /\
              read_text_file w filename =
              match getitem df "time" with
              | None => Raise (KeyError "time")
              | Some [] =>
                  Raise (IndexError "single positional indexer is out-of-bounds")
              | Some (first :: rest) =>
                  let d := last (first :: rest) first - first in
                  Ok (FileData df [d] (columns df)
                        (if negb (Qeq_bool d 0)
                         then inject_Z
                                (Z.of_nat (List.length (first :: rest)) - 1) / d
                         else 0))
              end).
  { intros tcol Hin.
    destruct (read_text_file_unfold w filename table Hcsv
                (in_map fst _ _ Hin)) as (df & Hdf & Hres).
    exists df. split; [| exact Hres].
    pose proof (reordered_frame table df Hnd Hdf) as Hshape.
    pose proof (reordered_frame_perm table df Hshape) as Hperm.
    apply getitem_unique.
    - unfold columns. apply (Permutation_NoDup (l := map fst table)).
      + apply Permutation_map, Permutation_sym, Hperm.
      + exact Hnd.
    - apply (Permutation_in _ (Permutation_sym Hperm)). exact Hin. }
  split; [| split].
  - intros Hno.
    apply (proj2 (read_text_file_missing_time_iff w filename table Hcsv) Hno).
  - intros Hin. destruct (Hgo [] Hin) as (df & G & ->). rewrite G. reflexivity.
  - intros first rest Hin.
    destruct (Hgo (first :: rest) Hin) as (df & G & ->). rewrite G.
    eexists. split; [reflexivity |].
    unfold time_of. cbn [df_temp]. rewrite G. reflexivity.
Qed.

Lemma text_reader_outcomes_witness :
  (exists d,
     read_text_file (Samples.world_of Samples.table_time_middle) "run.csv" = Ok d /\
     time_of d = [0; 1; 2]) /\
  read_text_file (Samples.world_of [("A", []); ("time", [])]) "run.csv" =
  Raise (IndexError "single positional indexer is out-of-bounds").
Proof.
  assert (N1 : NoDup (columns Samples.table_time_middle))
    by (repeat constructor; simpl; intuition discriminate).
  assert (N2 : NoDup (columns [("A", @nil Q); ("time", [])]))
    by (repeat constructor; simpl; intuition discriminate).
  split.
  - exact (proj2 (proj2 (proj2 (text_reader_outcomes
                    (Samples.world_of Samples.table_time_middle) "run.csv")
                  Samples.table_time_middle eq_refl N1))
             0 [1; 2] (or_intror (or_introl eq_refl))).
  - exact (proj1 (proj2 (proj2 (text_reader_outcomes
                    (Samples.world_of [("A", []); ("time", [])]) "run.csv")
                  [("A", []); ("time", [])] eq_refl N2))
             (or_intror (or_introl eq_refl))).
Defined.

(** X12.  The text reader neither drops nor alters a column.  The data set
    holds the columns of the parsed table, each with its data; the columns
    other than time come in the order of the file. *)
Theorem text_reader_keeps_columns (w : world) (filename : string)
        (table : DataFrame) (d : file_data) :
  read_csv w filename = Ok table -> NoDup (columns table) ->
  read_text_file w filename = Ok d ->
  Permutation (df_temp d) table /\
  filter (fun col => negb (String.eqb (fst col) "time")) (df_temp d)
  = filter (fun col => negb (String.eqb (fst col) "time")) table /\
  getitem (df_temp d) "time" = getitem table "time".
Proof.
  intros Hcsv Hnd Hok.
  destruct (read_text_file_column_order w filename table d Hcsv Hnd Hok)
    as (_ & Hfirst & Hother).
  destruct table as [|[first values] others].
  - rewrite (Hother ltac:(discriminate)).
    split; [apply Permutation_refl | split; reflexivity].
  - destruct (String.eqb_spec first "time") as [-> | Hne].
    + rewrite (Hfirst values others eq_refl).
      split; [apply Permutation_sym, Permutation_cons_append |].
      split.
      * rewrite filter_app. simpl. apply app_nil_r.
      * rewrite (getitem_unique (others ++ [("time", values)])%list "time" values).
        -- unfold getitem. simpl. reflexivity.
        -- unfold columns. rewrite map_app. simpl.
           apply (Permutation_NoDup (l := "time" :: map fst others));
             [apply Permutation_cons_append | exact Hnd].
        -- apply in_or_app. right. left. reflexivity.
    + rewrite (Hother Hne).
      split; [apply Permutation_refl | split; reflexivity].
Qed.

Lemma text_reader_keeps_columns_witness :
  exists d,
    read_text_file (Samples.world_of Samples.table_time_first) "run.csv" = Ok d /\
    Permutation (df_temp d) Samples.table_time_first /\
    filter (fun col => negb (String.eqb (fst col) "time")) (df_temp d)
    = [("A", [5; 6; 7]); ("B", [8; 9; 10])].
Proof.
  assert (N : NoDup (columns Samples.table_time_first))
    by (repeat constructor; simpl; intuition discriminate).
  eexists. split; [reflexivity |].
  pose (H := text_reader_keeps_columns
               (Samples.world_of Samples.table_time_first) "run.csv"
               Samples.table_time_first _ eq_refl N eq_refl).
  split; [exact (proj1 H) | exact (proj1 (proj2 H))].
Defined.

End TextReaderMore.

Section SamplingMore.
Import FileIO Notions.
Open Scope string_scope.

(** The sampling frequency of the text reader, from the time vector of the
    data set it returns. *)
Lemma read_text_file_Fs (w : world) (filename : string) (d : file_data) :
  read_text_file w filename = Ok d ->
  time_of d <> [] /\
  getitem (df_temp d) "time" = Some (time_of d) /\
  nomes_sinais d = columns (df_temp d) /\
  Fs d = if negb (Qeq_bool (time_span d) 0)
         then inject_Z (Z.of_nat (List.length (time_of d)) - 1) / time_span d
         else 0.
Proof.
  unfold read_text_file.
  destruct (read_csv w filename) as [table|]; simpl; [| discriminate].
  destruct (mem "time" (columns table)); simpl; [| discriminate].
  match goal with |- context [getitem ?x "time"] =>
    set (df := x); destruct (getitem df "time") as [[|first rest]|] eqn:G end;
    try discriminate.
  intros E. injection E as <-.
  unfold time_span, time_of. cbn [df_temp Fs nomes_sinais]. rewrite G.
  repeat split. discriminate.
Qed.

(** X13.  The text reader never divides by zero.  When the first and the
    last time are equal, as they are in a file with a single row, the
    sampling frequency it returns is 0; otherwise it is the number of rows
    less one, divided by the last time minus the first. *)
Theorem text_sampling_frequency (w : world) (filename : string) (d : file_data) :
  read_text_file w filename = Ok d ->
  (time_span d == 0 -> Fs d = 0) /\
  (~ time_span d == 0 ->
   Fs d = inject_Z (Z.of_nat (List.length (time_of d)) - 1) / time_span d) /\
  (List.length (time_of d) = 1%nat -> time_span d == 0 /\ Fs d = 0).
Proof.
  intros H. destruct (read_text_file_Fs w filename d H) as (Hne & _ & _ & HFs).
  assert (Hzero : time_span d == 0 -> Fs d = 0).
  { intros Hz. rewrite HFs. apply Qeq_bool_iff in Hz. rewrite Hz. reflexivity. }
  split; [exact Hzero |]. split.
  - intros Hnz. rewrite HFs.
    destruct (Qeq_bool (time_span d) 0) eqn:E; [| reflexivity].
    apply Qeq_bool_iff in E. contradiction.
  - intros Hlen.
    assert (Hz : time_span d == 0).
    { unfold time_span. destruct (time_of d) as [|a [|b l]]; try discriminate.
      simpl. ring. }
    split; [exact Hz | exact (Hzero Hz)].
Qed.

Lemma text_sampling_frequency_witness :
  exists d,
    read_text_file (Samples.world_of [("A", [7]); ("time", [3])]) "run.csv" = Ok d /\
    time_span d == 0 /\ Fs d = 0.
Proof.
  eexists. split; [reflexivity |].
  exact (proj2 (proj2 (text_sampling_frequency
                         (Samples.world_of [("A", [7]); ("time", [3])])
                         "run.csv" _ eq_refl)) eq_refl).
Defined.

End SamplingMore.

(** ** More about the binary reader *)

Section LynxReaderMore.
Import FileIO Notions Drivers.
Open Scope string_scope.

(** What the loop over the channels collects when every read succeeds. *)
Lemma read_channels_contents (o : FileTS) (n : nat) :
  forall todo i chans,
  read_channels o n i todo = Ok chans ->
  chans = map (fun k => (normalize (SnName o k) (SnUnit o k) (k + 1),
                         map (buffer_of (ReadBuffer o k 0%Z n)) (seq 0 n)))
              (seq i todo) /\
  forall k, (i <= k < i + todo)%nat -> read_ok (ReadBuffer o k 0%Z n) = true.
Proof.
  induction todo as [|todo IH]; intros i chans H; simpl in H.
  - injection H as <-. split; [reflexivity | intros k Hk; lia].
  - destruct (ReadBuffer o i 0%Z n) as [success buffer_data n_out|] eqn:R;
      [| discriminate].
    destruct success; simpl in H; [| discriminate].
    destruct (read_channels o n (S i) todo) as [rest|] eqn:Rest; simpl in H;
      [| discriminate].
    injection H as <-. destruct (IH (S i) rest Rest) as [-> Hall].
    split.
    + cbn [seq map]. rewrite R. reflexivity.
    + intros k Hk. destruct (Nat.eq_dec k i) as [-> | Hne].
      * rewrite R. reflexivity.
      * apply Hall. lia.
Qed.

Lemma read_channels_succeeds (o : FileTS) (n : nat) :
  forall todo i,
  (forall k, (i <= k < i + todo)%nat -> read_ok (ReadBuffer o k 0%Z n) = true) ->
  exists chans, read_channels o n i todo = Ok chans /\
                List.length chans = todo.
Proof.
  induction todo as [|todo IH]; intros i Hall.
  - exists []. split; reflexivity.
  - destruct (IH (S i)) as (rest & Hrest & Hlen);
      [intros k Hk; apply Hall; lia |].
    pose proof (Hall i ltac:(lia)) as Hi.
    simpl. destruct (ReadBuffer o i 0%Z n) as [success b n_out|];
      [| discriminate Hi].
    simpl in Hi. subst success. simpl. rewrite Hrest. simpl.
    eexists. split; [reflexivity |]. simpl. now rewrite Hlen.
Qed.

(** The loop stops at the first read that fails. *)
Lemma read_channels_fails (o : FileTS) (n : nat) :
  forall todo i bad,
  (i <= bad < i + todo)%nat ->
  (forall k, (i <= k < bad)%nat -> read_ok (ReadBuffer o k 0%Z n) = true) ->
  read_ok (ReadBuffer o bad 0%Z n) = false ->
  read_channels o n i todo =
  Raise (match ReadBuffer o bad 0%Z n with
         | ReadTuple _ _ _ =>
             RuntimeError ("Erro ao ler canal " ++ str bad ++ ": " ++ ErrorCodeStr o)
         | ReadOther => RuntimeError "ReadBuffer retornou valor inesperado."
         end).
Proof.
  induction todo as [|todo IH]; intros i bad Hr Hbefore Hbad; [lia |].
  simpl. destruct (Nat.eq_dec i bad) as [-> | Hne].
  - destruct (ReadBuffer o bad 0%Z n) as [success b n_out|]; [| reflexivity].
    simpl in Hbad. subst success. reflexivity.
  - pose proof (Hbefore i ltac:(lia)) as Hi.
    destruct (ReadBuffer o i 0%Z n) as [success b n_out|] eqn:R;
      [| discriminate Hi].
    simpl in Hi. subst success. simpl.
    rewrite (IH (S i) bad); [reflexivity | lia | | exact Hbad].
    intros k Hk. apply Hbefore. lia.
Qed.

(** X15.  When the binary reader succeeds.  It returns a data set exactly
    when the driver opens the file, reports one channel or more, answers
    the read of every channel with a tuple that tells success, and reports
    a sampling frequency that is not zero. *)
Theorem lynx_reader_succeeds_iff (w : world) (filename : string) :
  let o := Dispatch_FileTS w filename in
  (exists d, read_lynx_file w filename = Ok d) <->
  OpenFile o = true /\
  (1 <= nChannels o)%nat /\
  (forall i, (i < nChannels o)%nat ->
             read_ok (ReadBuffer o i 0%Z (nSamples o)) = true) /\
  ~ SampleFreq o == 0.
Proof.
  intros o. unfold read_lynx_file. fold o. split.
  - intros [d H].
    destruct (OpenFile o); simpl in H; [| discriminate].
    destruct (read_channels o (nSamples o) 0 (nChannels o)) as [chans|] eqn:R;
      simpl in H; [| discriminate].
    destruct (read_channels_contents o (nSamples o) _ _ _ R) as [Hc Hall].
    destruct chans as [|col chans]; simpl in H; [discriminate |].
    destruct (truediv (inject_Z (Z.of_nat (nSamples o) - 1)) (SampleFreq o))
      as [stop|] eqn:E; simpl in H; [| discriminate].
    apply truediv_ok in E. destruct E as [Hfs _].
    split; [reflexivity |]. split; [| split; [| exact Hfs]].
    + destruct (nChannels o); [discriminate Hc | lia].
    + intros i Hi. apply Hall. lia.
  - intros (Hopen & Hch & Hall & Hfs). rewrite Hopen. simpl.
    destruct (read_channels_succeeds o (nSamples o) (nChannels o) 0)
      as (chans & -> & Hlen); [intros k Hk; apply Hall; lia |].
    simpl. destruct chans as [|col chans]; [simpl in Hlen; lia |].
    simpl. unfold truediv.
    destruct (Qeq_bool (SampleFreq o) 0) eqn:E;
      [apply Qeq_bool_iff in E; contradiction |].
    simpl. eexists. reflexivity.
Qed.

(** X16.  How the binary reader fails, in the order of its checks.  A file
    the driver cannot open gives a runtime error with the driver's
    diagnostic.  Otherwise the first channel whose read fails ends the call:
    the error names that channel index, or says that the read returned no
    tuple, and later channels are not looked at.  With every read well, a
    file of no channels gives a value error, and a sampling frequency of
    zero gives a division error. *)
Theorem lynx_reader_failures (w : world) (filename : string) :
  let o := Dispatch_FileTS w filename in
  (OpenFile o = false ->
     read_lynx_file w filename =
     Raise (RuntimeError ("Erro ao abrir arquivo: " ++ ErrorCodeStr o))) /\
  (forall bad,
     OpenFile o = true -> (bad < nChannels o)%nat ->
     (forall k, (k < bad)%nat ->
                read_ok (ReadBuffer o k 0%Z (nSamples o)) = true) ->
     read_ok (ReadBuffer o bad 0%Z (nSamples o)) = false ->
     read_lynx_file w filename =
     Raise (match ReadBuffer o bad 0%Z (nSamples o) with
            | ReadTuple _ _ _ =>
                RuntimeError ("Erro ao ler canal " ++ str bad ++ ": "
                              ++ ErrorCodeStr o)
            | ReadOther => RuntimeError "ReadBuffer retornou valor inesperado."
            end)) /\
  (OpenFile o = true -> nChannels o = 0%nat ->
     read_lynx_file w filename =
     Raise (ValueError "need at least one array to concatenate")) /\
  (OpenFile o = true -> (1 <= nChannels o)%nat ->
     (forall i, (i < nChannels o)%nat ->
                read_ok (ReadBuffer o i 0%Z (nSamples o)) = true) ->
     SampleFreq o == 0 ->
     read_lynx_file w filename =
     Raise (ZeroDivisionError "float division by zero")).
Proof.
  intros o. unfold read_lynx_file. fold o.
  split; [| split; [| split]].
  - intros ->. reflexivity.
  - intros bad -> Hbad Hbefore Hfail. simpl.
    rewrite (read_channels_fails o (nSamples o) (nChannels o) 0 bad);
      [reflexivity | lia | | exact Hfail].
    intros k Hk. apply Hbefore. lia.
  - intros -> ->. reflexivity.
  - intros -> Hch Hall Hfs. simpl.
    destruct (read_channels_succeeds o (nSamples o) (nChannels o) 0)
      as (chans & -> & Hlen); [intros k Hk; apply Hall; lia |].
    simpl. destruct chans as [|col chans]; [simpl in Hlen; lia |].
    simpl. unfold truediv. apply Qeq_bool_iff in Hfs. rewrite Hfs. reflexivity.
Qed.

Lemma lynx_reader_failures_witness :
  read_lynx_file (world_with (failing_at 1 3 4)) "run.tem" =
  Raise (RuntimeError "Erro ao ler canal 1: E42") /\
  read_lynx_file (world_with (failing_at 7 0 4)) "run.tem" =
  Raise (ValueError "need at least one array to concatenate").
Proof.
  split.
  - refine (proj1 (proj2 (lynx_reader_failures
                            (world_with (failing_at 1 3 4)) "run.tem"))
                  1%nat eq_refl _ _ eq_refl).
    + simpl. lia.
    + intros k Hk. assert (k = 0)%nat as -> by lia. reflexivity.
  - exact (proj1 (proj2 (proj2 (lynx_reader_failures
                            (world_with (failing_at 7 0 4)) "run.tem")))
                 eq_refl eq_refl).
Defined.

(** The frame of a binary file, column by column. *)
Lemma read_lynx_file_shape (w : world) (filename : string) (d : file_data) :
  read_lynx_file w filename = Ok d ->
  let o := Dispatch_FileTS w filename in
  let n := nSamples o in
  df_temp d =
    (map (fun i => (normalize (SnName o i) (SnUnit o i) (i + 1),
                    map (buffer_of (ReadBuffer o i 0%Z n)) (seq 0 n)))
         (seq 0 (nChannels o))
     ++ [("time", linspace 0 (inject_Z (Z.of_nat n - 1) / SampleFreq o) n)])%list.
Proof.
  intros H. cbv zeta. unfold read_lynx_file in H.
  set (o := Dispatch_FileTS w filename) in *.
  destruct (OpenFile o); simpl in H; [| discriminate].
  destruct (read_channels o (nSamples o) 0 (nChannels o)) as [chans|] eqn:R;
    simpl in H; [| discriminate].
  destruct (read_channels_contents o (nSamples o) _ _ _ R) as [Hc _].
  pose proof (proj1 (read_channels_ok o (nSamples o) _ _ _ R)) as Hnames.
  fold (header_names (SnName o) (SnUnit o) (nChannels o)) in Hnames.
  destruct chans as [|col chans]; simpl in H; [discriminate |].
  destruct (truediv (inject_Z (Z.of_nat (nSamples o) - 1)) (SampleFreq o))
    as [stop|] eqn:E1; simpl in H; [| discriminate].
  destruct (truediv (inject_Z (Z.of_nat (nSamples o))) (SampleFreq o))
    as [x|]; simpl in H; [| discriminate].
  apply truediv_ok in E1. destruct E1 as [_ ->].
  injection H as <-. cbn [df_temp].
  unfold setitem. rewrite Hnames, header_names_not_time, Hc. reflexivity.
Qed.

(** X17.  What the data set of a binary file holds.  The columns are the
    channels in the order of the driver, each under its identifier and with
    the [nSamples] values the driver delivered for it, and then the time
    column; so every column, time included, has [nSamples] entries. *)
Theorem lynx_frame_contents (w : world) (filename : string) (d : file_data) :
  read_lynx_file w filename = Ok d ->
  let o := Dispatch_FileTS w filename in
  let n := nSamples o in
  df_temp d =
    (map (fun i => (normalize (SnName o i) (SnUnit o i) (i + 1),
                    map (buffer_of (ReadBuffer o i 0%Z n)) (seq 0 n)))
         (seq 0 (nChannels o))
     ++ [("time", linspace 0 (inject_Z (Z.of_nat n - 1) / SampleFreq o) n)])%list /\
  Forall (fun col => List.length (snd col) = n) (df_temp d).
Proof.
  intros H. cbv zeta.
  pose proof (read_lynx_file_shape w filename d H) as Hshape.
  cbv zeta in Hshape. split; [exact Hshape |].
  rewrite Hshape. apply Forall_app. split.
  - apply Forall_forall. intros col Hin. apply in_map_iff in Hin.
    destruct Hin as (i & <- & _). simpl. now rewrite length_map, length_seq.
  - constructor; [apply linspace_length | constructor].
Qed.

Lemma lynx_frame_contents_witness :
  exists d,
    read_lynx_file (Samples.world_of []) "run.tem" = Ok d /\
    Forall (fun col => List.length (snd col) = 5%nat) (df_temp d).
Proof.
  eexists. split; [reflexivity |].
  exact (proj2 (lynx_frame_contents (Samples.world_of []) "run.tem" _ eq_refl)).
Defined.

(** X18.  The header reader and the full reader agree on a binary file:
    the names of a data set are the identifiers that [read_lynx_headers]
    returns for the same file, one per channel, followed by "time". *)
Theorem lynx_headers_match_full_read (w : world) (filename : string)
        (d : file_data) :
  read_lynx_file w filename = Ok d ->
  exists names,
    read_lynx_headers w filename = Ok names /\
    List.length names = nChannels (Dispatch_FileTS w filename) /\
    nomes_sinais d = (names ++ ["time"])%list /\
    columns (df_temp d) = (names ++ ["time"])%list.
Proof.
  intros H. eexists. split; [reflexivity |].
  pose proof (proj1 (read_lynx_file_frame w filename d H)) as Hn.
  cbv zeta in Hn.
  split; [unfold header_names; now rewrite length_map, length_seq |].
  split; [exact Hn |].
  rewrite <- Hn.
  symmetry. exact (proj2 (proj2 (proj2 (proj2
                     (read_lynx_file_ok w filename d H))))).
Qed.

Lemma lynx_headers_match_full_read_witness :
  exists d names,
    read_lynx_file (Samples.world_of []) "run.tem" = Ok d /\
    read_lynx_headers (Samples.world_of []) "run.tem" = Ok names /\
    nomes_sinais d = (names ++ ["time"])%list.
Proof.
  destruct (lynx_headers_match_full_read (Samples.world_of []) "run.tem" _ eq_refl)
    as (names & Hh & _ & Hn & _).
  eexists. exists names. split; [reflexivity |]. split; assumption.
Defined.

End LynxReaderMore.

Section TimeVectorMore.
Import FileIO Notions Drivers.
Open Scope string_scope.

Lemma Forall2_Qeq_nth (l l' : list Q) :
  Forall2 Qeq l l' ->
  forall i, (i < List.length l)%nat -> nth i l 0 == nth i l' 0.
Proof.
  induction 1 as [|x y l l' Hxy _ IH]; intros i Hi; simpl in Hi; [lia |].
  destruct i as [|i]; simpl; [exact Hxy |]. apply IH. lia.
Qed.

Lemma nth_map_seq (g : nat -> Q) (n i : nat) :
  (i < n)%nat -> nth i (map g (seq 0 n)) 0 = g i.
Proof.
  intros Hi. rewrite (nth_indep _ 0 (g 0%nat)) by (now rewrite length_map, length_seq).
  rewrite map_nth, seq_nth by exact Hi. reflexivity.
Qed.

(** X19.  The time vector of a binary file starts at 0 and, for a positive
    sampling frequency, is strictly increasing: a later sample has a later
    time. *)
Theorem lynx_time_strictly_increasing (w : world) (filename : string)
        (d : file_data) :
  read_lynx_file w filename = Ok d ->
  let o := Dispatch_FileTS w filename in
  0 < SampleFreq o ->
  (forall i j, (i < j < nSamples o)%nat ->
               nth i (time_of d) 0 < nth j (time_of d) 0) /\
  ((1 <= nSamples o)%nat -> nth 0 (time_of d) 0 == 0).
Proof.
  intros H o Hpos.
  destruct (read_lynx_file_ok w filename d H) as (Hfs & Htime & _).
  cbv zeta in Hfs, Htime. fold o in Hfs, Htime.
  pose proof (linspace_closed_form (SampleFreq o) (nSamples o) Hfs) as Hc.
  rewrite <- Htime in Hc.
  assert (Hlen : List.length (time_of d) = nSamples o)
    by (rewrite Htime; apply linspace_length).
  assert (Hnth : forall i, (i < nSamples o)%nat ->
                 nth i (time_of d) 0 == inject_Z (Z.of_nat i) / SampleFreq o).
  { intros i Hi. rewrite (Forall2_Qeq_nth _ _ Hc i) by lia.
    rewrite nth_map_seq by exact Hi. reflexivity. }
  split.
  - intros i j Hij. rewrite (Hnth i), (Hnth j) by lia.
    unfold Qdiv. apply Qmult_lt_compat_r.
    + apply Qinv_lt_0_compat. exact Hpos.
    + rewrite <- Zlt_Qlt. lia.
  - intros Hn. rewrite (Hnth 0%nat) by lia.
    change (inject_Z (Z.of_nat 0)) with 0. unfold Qdiv. ring.
Qed.

Lemma lynx_time_strictly_increasing_witness :
  exists d,
    read_lynx_file (Samples.world_of []) "run.tem" = Ok d /\
    0 < SampleFreq Samples.two_channels /\
    nth 1 (time_of d) 0 < nth 4 (time_of d) 0.
Proof.
  assert (Hpos : 0 < SampleFreq Samples.two_channels) by reflexivity.
  eexists. split; [reflexivity |]. split; [exact Hpos |].
  refine (proj1 (lynx_time_strictly_increasing
                   (Samples.world_of []) "run.tem" _ eq_refl Hpos) 1%nat 4%nat _).
  simpl. lia.
Defined.

(** X21.  Whatever file [read_file_data] reads, the data set it returns has
    a column labelled "time", lists as its names the labels of its columns,
    in their order, and carries one duration. *)
Theorem dataset_has_time_column (w : world) (filename : string) (d : file_data) :
  read_file_data w filename = Ok d ->
  In "time" (nomes_sinais d) /\
  nomes_sinais d = columns (df_temp d) /\
  getitem (df_temp d) "time" = Some (time_of d) /\
  exists x, duration d = [x].
Proof.
  unfold read_file_data.
  destruct (mem (lower (snd (splitext filename))) lynx_extensions).
  - intros H.
    destruct (read_lynx_file_ok w filename d H) as (_ & Htime & Hdur & _ & Hn).
    pose proof (proj1 (read_lynx_file_frame w filename d H)) as Hnames.
    cbv zeta in Htime, Hdur, Hnames.
    split; [rewrite Hnames; apply in_or_app; right; left; reflexivity |].
    split; [exact Hn |]. split; [| eexists; exact Hdur].
    assert (Hin : In "time" (columns (df_temp d))).
    { rewrite <- Hn, Hnames. apply in_or_app. right. left. reflexivity. }
    unfold time_of. destruct (getitem (df_temp d) "time") as [t|] eqn:G;
      [reflexivity |].
    exfalso. unfold getitem in G. apply in_map_iff in Hin.
    destruct Hin as ([l v] & Hl & Hin). simpl in Hl. subst l.
    destruct (find (fun col => String.eqb (fst col) "time") (df_temp d))
      eqn:F; [discriminate |].
    apply (find_none _ _ F) in Hin. simpl in Hin. discriminate.
  - destruct (mem (lower (snd (splitext filename))) text_extensions);
      [| discriminate].
    intros H.
    destruct (read_text_file_Fs w filename d H) as (_ & G & Hn & _).
    split.
    + rewrite Hn. apply getitem_Some_In in G. exact (in_map fst _ _ G).
    + split; [exact Hn |]. split; [exact G |].
      eexists. apply (read_text_file_duration w filename d H).
Qed.

Lemma dataset_has_time_column_witness :
  exists d,
    read_file_data (Samples.world_of Samples.table_time_middle) "runs/day1.CSV"
    = Ok d /\
    In "time" (nomes_sinais d).
Proof.
  eexists. split; [reflexivity |].
  exact (proj1 (dataset_has_time_column
                  (Samples.world_of Samples.table_time_middle) "runs/day1.CSV"
                  _ eq_refl)).
Defined.

End TimeVectorMore.

(** ** More about the header reader *)

Section HeaderReaderMore.
Import FileIO Notions Headers.
Open Scope string_scope.

Lemma rstrip_cons (c : ascii) (s : string) :
  rstrip (String c s) =
  match rstrip s with
  | EmptyString => if isspace c then EmptyString else String c EmptyString
  | r => String c r
  end.
Proof. reflexivity. Qed.

Lemma rstrip_idempotent (s : string) : rstrip (rstrip s) = rstrip s.
Proof.
  induction s as [|c s IH]; [reflexivity |].
  rewrite rstrip_cons. destruct (rstrip s) as [|a r] eqn:E.
  - destruct (isspace c) eqn:Hc; [reflexivity |].
    rewrite rstrip_cons. simpl. rewrite Hc. reflexivity.
  - rewrite rstrip_cons, IH. reflexivity.
Qed.

Lemma lstrip_starts_clean (s : string) : starts_clean (lstrip s).
Proof.
  induction s as [|c s IH]; simpl; [exact I |].
  destruct (isspace c) eqn:Hc; [exact IH | exact Hc].
Qed.

Lemma lstrip_of_clean (s : string) : starts_clean s -> lstrip s = s.
Proof. destruct s as [|c s]; simpl; [reflexivity | now intros ->]. Qed.

Lemma rstrip_starts_clean (s : string) : starts_clean s -> starts_clean (rstrip s).
Proof.
  destruct s as [|c s]; [intros _; exact I |].
  intros Hc. simpl in Hc. cbn [rstrip].
  destruct (rstrip s); [rewrite Hc |]; exact Hc.
Qed.

Lemma strip_idempotent (s : string) : strip (strip s) = strip s.
Proof.
  unfold strip.
  rewrite (lstrip_of_clean (rstrip (lstrip s)))
    by (apply rstrip_starts_clean, lstrip_starts_clean).
  apply rstrip_idempotent.
Qed.

Lemma split_comma_nonempty (s : string) : split_comma s <> [].
Proof.
  induction s as [|c s IH]; simpl; [discriminate |].
  destruct (Ascii.eqb c ","); [discriminate |].
  destruct (split_comma s); discriminate.
Qed.

(** X22.  What the header reader returns is never a time column and never
    padded: no name lower-cases to "time", and stripping a name again
    changes nothing. *)
Theorem text_headers_clean (w : world) (filename : string) (names : list string) :
  read_text_headers w filename = Ok names ->
  Forall (fun s => lower s <> "time" /\ strip s = s) names.
Proof.
  unfold read_text_headers.
  destruct (readline w filename) as [header_line|]; simpl; [| discriminate].
  intros H. injection H as <-.
  apply Forall_forall. intros s Hin. apply filter_In in Hin.
  destruct Hin as [Hin Hs]. split.
  - intros E. rewrite E in Hs. discriminate.
  - apply in_map_iff in Hin. destruct Hin as (field & <- & _).
    apply strip_idempotent.
Qed.

Lemma text_headers_clean_witness :
  exists names,
    read_text_headers (Samples.world_of Samples.table_Time) "run.csv" = Ok names /\
    Forall (fun s => lower s <> "time" /\ strip s = s) names.
Proof.
  eexists. split; [reflexivity |].
  exact (text_headers_clean (Samples.world_of Samples.table_Time) "run.csv" _
                            eq_refl).
Defined.

Lemma lstrip_all_space (s : string) :
  every_char isspace s = true -> lstrip s = "".
Proof.
  induction s as [|c s IH]; simpl; [reflexivity |].
  intros H. apply andb_true_iff in H. destruct H as [-> Hs]. now apply IH.
Qed.

(** X23.  An empty file has one channel for the header reader: when the
    first line is empty or holds whitespace only, the reader returns a
    single name, the empty string, and not an empty list. *)
Theorem text_headers_of_blank_line (w : world) (filename line : string) :
  readline w filename = Ok line -> every_char isspace line = true ->
  read_text_headers w filename = Ok [""].
Proof.
  intros Hr Hblank. unfold read_text_headers. rewrite Hr. simpl.
  unfold strip at 2. rewrite (lstrip_all_space line Hblank). reflexivity.
Qed.

Lemma text_headers_of_blank_line_witness :
  read_text_headers (world_of_line "  ") "empty.csv" = Ok [""].
Proof.
  exact (text_headers_of_blank_line (world_of_line "  ") "empty.csv" "  "
                                    eq_refl eq_refl).
Defined.

Lemma plain_not_space (c : ascii) : plain c = true -> isspace c = false.
Proof.
  unfold plain. intros H. apply andb_true_iff in H.
  destruct H as [H _]. now apply negb_true_iff in H.
Qed.

Lemma plain_not_comma (c : ascii) : plain c = true -> Ascii.eqb c "," = false.
Proof.
  unfold plain. intros H. apply andb_true_iff in H.
  destruct H as [_ H]. now apply negb_true_iff in H.
Qed.

Lemma rstrip_plain (s : string) : every_char plain s = true -> rstrip s = s.
Proof.
  induction s as [|c s IH]; simpl; [reflexivity |].
  intros H. apply andb_true_iff in H. destruct H as [Hc Hs].
  rewrite (IH Hs). destruct s; [| reflexivity].
  now rewrite (plain_not_space c Hc).
Qed.

Lemma strip_plain (s : string) : every_char plain s = true -> strip s = s.
Proof.
  intros H. unfold strip. rewrite lstrip_of_clean.
  - now apply rstrip_plain.
  - destruct s as [|c s]; [exact I |]. simpl in *.
    apply andb_true_iff in H. destruct H as [Hc _].
    now apply plain_not_space.
Qed.

Lemma split_comma_plain (s : string) :
  every_char plain s = true -> split_comma s = [s].
Proof.
  induction s as [|c s IH]; simpl; [reflexivity |].
  intros H. apply andb_true_iff in H. destruct H as [Hc Hs].
  rewrite (plain_not_comma c Hc), (IH Hs). reflexivity.
Qed.

Lemma split_comma_field (s rest : string) :
  every_char plain s = true ->
  split_comma (s ++ String "," rest) = s :: split_comma rest.
Proof.
  induction s as [|c s IH]; intros H; [reflexivity |].
  cbn [every_char] in H. apply andb_true_iff in H. destruct H as [Hc Hs].
  cbn [append split_comma]. rewrite (plain_not_comma c Hc), (IH Hs).
  reflexivity.
Qed.

Lemma every_char_concat (fields : list string) :
  Forall (fun s => every_char plain s = true) fields ->
  every_char (fun c => negb (isspace c)) (String.concat "," fields) = true.
Proof.
  induction 1 as [|s fields Hs _ IH]; [reflexivity |].
  assert (Hsp : every_char (fun c => negb (isspace c)) s = true).
  { apply (every_char_weaken plain); [| exact Hs].
    intros c Hc. now rewrite (plain_not_space c Hc). }
  destruct fields as [|s' fields]; [exact Hsp |].
  change (String.concat "," (s :: s' :: fields))
    with (s ++ String "," (String.concat "," (s' :: fields))).
  rewrite every_char_app, Hsp. cbn [andb every_char]. exact IH.
Qed.

Lemma split_comma_concat (fields : list string) :
  fields <> [] ->
  Forall (fun s => every_char plain s = true) fields ->
  split_comma (String.concat "," fields) = fields.
Proof.
  intros Hne Hall. induction Hall as [|s fields Hs Hall IH]; [congruence |].
  destruct fields as [|s' fields].
  - exact (split_comma_plain s Hs).
  - change (String.concat "," (s :: s' :: fields))
      with (s ++ String "," (String.concat "," (s' :: fields))).
    rewrite (split_comma_field s _ Hs), IH by discriminate. reflexivity.
Qed.

Lemma strip_no_space (s : string) :
  every_char (fun c => negb (isspace c)) s = true -> strip (s ++ newline) = s.
Proof.
  intros H.
  assert (Hr : forall t, every_char (fun c => negb (isspace c)) t = true ->
                         rstrip (t ++ newline) = t).
  { induction t as [|c t IH]; [reflexivity |].
    cbn [every_char append]. rewrite rstrip_cons. intros Ht.
    apply andb_true_iff in Ht. destruct Ht as [Hc Ht].
    rewrite (IH Ht). destruct t; [| reflexivity].
    apply negb_true_iff in Hc. now rewrite Hc. }
  destruct s as [|c s]; [reflexivity |].
  unfold strip. rewrite lstrip_of_clean; [now apply Hr |].
  cbn [every_char] in H. apply andb_true_iff in H. destruct H as [Hc _].
  apply negb_true_iff in Hc. exact Hc.
Qed.

(** X24.  The header reader reads back what a header line was written
    from.  For a first line made of one field or more, joined by commas and
    ended by a line feed, the fields free of whitespace and commas, it
    returns the fields that are not "time" in any mix of upper and lower
    case, in their order. *)
Theorem text_headers_of_joined_fields (w : world) (filename : string)
        (fields : list string) :
  fields <> [] ->
  Forall (fun s => every_char plain s = true) fields ->
  readline w filename = Ok (String.concat "," fields ++ newline) ->
  read_text_headers w filename = Ok (filter is_channel fields).
Proof.
  intros Hne Hall Hr. unfold read_text_headers. rewrite Hr. simpl.
  rewrite (strip_no_space _ (every_char_concat fields Hall)).
  rewrite (split_comma_concat fields Hne Hall).
  replace (map strip fields) with fields; [reflexivity |].
  clear Hne Hr. induction Hall as [|s fields Hs _ IH]; [reflexivity |].
  simpl. rewrite (strip_plain s Hs). f_equal. exact IH.
Qed.

Lemma text_headers_of_joined_fields_witness :
  read_text_headers
    (world_of_line (String.concat "," ["Time"; "A[kN]"; "B"] ++ newline))
    "run.csv"
  = Ok ["A[kN]"; "B"].
Proof.
  refine (text_headers_of_joined_fields
            (world_of_line (String.concat "," ["Time"; "A[kN]"; "B"] ++ newline))
            "run.csv" ["Time"; "A[kN]"; "B"] _ _ eq_refl).
  - discriminate.
  - repeat constructor.
Defined.

End HeaderReaderMore.

(** ** Theorems about the batch run *)

Section ProcessFacts.
Import FileIO CycleCount Notions Drivers Headers Process.
Open Scope string_scope.

Variable basename : string -> string.
Variable round4 : Q -> Q.

(** Both readers hand back exactly one duration. *)
Lemma read_file_data_duration (w : world) (path : string) (d : file_data) :
  read_file_data w path = Ok d -> exists seconds, duration d = [seconds].
Proof.
  unfold read_file_data.
  destruct (mem (lower (snd (splitext path))) lynx_extensions).
  - intros H. eexists.
    exact (proj1 (proj2 (proj2 (read_lynx_file_ok w path d H)))).
  - destruct (mem (lower (snd (splitext path))) text_extensions);
      [| discriminate].
    intros H. eexists. exact (read_text_file_duration w path d H).
Qed.

Lemma row_of_ok (w : world) (path : string) (d : file_data) :
  read_file_data w path = Ok d ->
  exists r, row_of basename round4 path d = Ok r /\
            File r = basename path /\
            List.length (cycles r) = List.length (channels_of (df_temp d)) /\
            Forall (fun c => (0 <= c)%Z) (cycles r).
Proof.
  intros H. destruct (read_file_data_duration w path d H) as [seconds Hd].
  unfold row_of. rewrite Hd. eexists. split; [reflexivity |].
  cbn [File cycles]. split; [reflexivity |]. split; [apply length_map |].
  apply Forall_forall. intros c Hc. apply in_map_iff in Hc.
  destruct Hc as (col & <- & _). unfold count_cycles_zero_crossing.
  apply Z.div_pos; [apply run_loop_flips_nonneg | lia].
Qed.

(** The loop never fails on what the readers return; it adds one row for
    each path that could be read. *)
Lemma read_all_spec (w : world) (paths : list string) :
  forall rows df,
  exists more,
    read_all basename round4 w paths rows df
    = Ok ((rows ++ more)%list, last_frame w paths df) /\
    map File more = map basename (filter (readable w) paths) /\
    Forall (fun r => Forall (fun c => (0 <= c)%Z) (cycles r)) more.
Proof.
  induction paths as [|path rest IH]; intros rows df.
  - exists []. rewrite app_nil_r. repeat split; constructor.
  - cbn [read_all last_frame fold_left filter]. unfold readable at 1.
    destruct (read_file_data w path) as [d|e] eqn:R.
    + destruct (row_of_ok w path d R) as (r & -> & Hfile & _ & Hpos).
      destruct (IH (rows ++ [r])%list (Some (df_temp d)))
        as (more & -> & Hfiles & Hall).
      exists (r :: more). rewrite <- app_assoc. split; [reflexivity |].
      split; [cbn [map]; now rewrite Hfile, Hfiles |].
      constructor; assumption.
    + apply IH.
Qed.

Lemma last_frame_unreadable (w : world) (paths : list string)
      (df : option DataFrame) :
  Forall (fun p => readable w p = false) paths -> last_frame w paths df = df.
Proof.
  intros H. revert df. induction H as [|p paths Hp _ IH]; intros df;
    [reflexivity |].
  cbn [last_frame fold_left]. unfold readable in Hp.
  destruct (read_file_data w p); [discriminate |]. apply IH.
Qed.

(** X25.  The summary has one row for each selected file that could be
    read, in the order of the selection; a file that fails to read is left
    out and does not end the run.  Every cycle count in it is at least 0. *)
Theorem summary_rows_follow_reads (w : world) (paths : list string)
        (header : list string) (rows : list row) :
  process_files basename round4 w paths = Summary header rows ->
  map File rows = map basename (filter (readable w) paths) /\
  Forall (fun r => Forall (fun c => (0 <= c)%Z) (cycles r)) rows.
Proof.
  unfold process_files. destruct paths as [|p paths]; [discriminate |].
  destruct (read_all_spec w (p :: paths) [] None) as (more & -> & Hf & Hall).
  cbn [app]. destruct (last_frame w (p :: paths) None); [| discriminate].
  intros E. injection E as _ <-. split; assumption.
Qed.

Lemma read_all_app (w : world) (first second : list string) :
  forall rows df,
  read_all basename round4 w (first ++ second) rows df =
  match read_all basename round4 w first rows df with
  | Ok (rows', df') => read_all basename round4 w second rows' df'
  | Raise e => Raise e
  end.
Proof.
  induction first as [|path first IH]; intros rows df; [reflexivity |].
  cbn [app read_all]. destruct (read_file_data w path) as [d|e]; [| apply IH].
  destruct (row_of basename round4 path d); [apply IH | reflexivity].
Qed.

Lemma read_all_unreadable (w : world) (paths : list string) :
  Forall (fun p => readable w p = false) paths ->
  forall rows df, read_all basename round4 w paths rows df = Ok (rows, df).
Proof.
  induction 1 as [|p paths Hp _ IH]; intros rows df; [reflexivity |].
  cbn [read_all]. unfold readable in Hp.
  destruct (read_file_data w p); [discriminate | apply IH].
Qed.

Lemma widest_row (rows : list row) (h : nat) :
  (fold_right Nat.max 0%nat (map width rows) <= h)%nat <->
  Forall (fun r => (width r <= h)%nat) rows.
Proof.
  induction rows as [|r rows IH]; cbn [map fold_right].
  - split; [constructor | lia].
  - split.
    + intros H. apply Nat.max_lub_iff in H. destruct H as [Hr Hrows].
      constructor; [exact Hr | now apply IH].
    + intros H. inversion H; subst. apply Nat.max_lub; [assumption |].
      now apply IH.
Qed.

Lemma widest_row_reached (rows : list row) (r : row) :
  In r rows -> (width r <= fold_right Nat.max 0%nat (map width rows))%nat.
Proof.
  induction rows as [|r' rows IH]; intros Hin; [contradiction |].
  cbn [map fold_right]. destruct Hin as [-> | Hin].
  - apply Nat.le_max_l.
  - eapply Nat.le_trans; [exact (IH Hin) | apply Nat.le_max_r].
Qed.

(** X26.  The header of the summary comes from the last file that could be
    read: "File", "Duration (s)" and the labels of that file's columns
    other than time.  With it [pd.DataFrame] builds the frame exactly when
    no file read before has more channels than that last file, the shorter
    rows being filled up; when a file has more, the call raises a value
    error and nothing is written. *)
Theorem summary_header_from_last_read (w : world)
        (before after : list string) (path : string) (d : file_data) :
  read_file_data w path = Ok d ->
  Forall (fun p => readable w p = false) after ->
  let header := (["File"; "Duration (s)"] ++ channels_of (df_temp d))%list in
  exists rows,
    process_files basename round4 w (before ++ path :: after)%list
    = Summary header rows /\
    (Forall (fun r => (width r <= List.length header)%nat) rows ->
     summary_frame basename round4 w (before ++ path :: after)%list
     = Frame header (map (pad (List.length header)) rows)) /\
    (~ Forall (fun r => (width r <= List.length header)%nat) rows ->
     exists k, (List.length header < k)%nat /\
     summary_frame basename round4 w (before ++ path :: after)%list
     = Ended (Uncaught (ValueError
                (str (List.length header) ++ " columns passed, "
                 ++ "passed data had " ++ str k ++ " columns")))).
Proof.
  intros Hd Hafter header.
  destruct (row_of_ok w path d Hd) as (r & Hr & _ & Hlen & _).
  destruct (read_all_spec w before [] None)
    as (rows0 & Hbefore & _).
  cbn [app] in Hbefore.
  assert (Hall : read_all basename round4 w (before ++ path :: after)%list
                          [] None
                 = Ok ((rows0 ++ [r])%list, Some (df_temp d))).
  { rewrite read_all_app, Hbefore. cbn [read_all]. rewrite Hd, Hr.
    apply (read_all_unreadable w after Hafter). }
  assert (Hproc : process_files basename round4 w (before ++ path :: after)%list
                  = Summary header (rows0 ++ [r])%list).
  { unfold process_files.
    destruct (before ++ path :: after)%list eqn:E;
      [destruct before; discriminate |].
    rewrite Hall. reflexivity. }
  assert (Hw : width r = List.length header).
  { unfold width, header. rewrite Hlen, length_app. reflexivity. }
  assert (Hge : (List.length header
                 <= fold_right Nat.max 0%nat (map width (rows0 ++ [r])%list))%nat).
  { rewrite <- Hw. apply widest_row_reached. apply in_or_app.
    right. left. reflexivity. }
  exists (rows0 ++ [r])%list. split; [exact Hproc |].
  unfold summary_frame. rewrite Hproc. unfold frame_of_rows.
  destruct (rows0 ++ [r])%list as [|r0 rest] eqn:E;
    [destruct rows0; discriminate |].
  rewrite <- E in *. split.
  - intros Hfit. apply widest_row in Hfit.
    replace (fold_right Nat.max 0%nat (map width (rows0 ++ [r])%list))
      with (List.length header) by lia.
    rewrite Nat.eqb_refl. rewrite E. reflexivity.
  - intros Hwide. rewrite <- widest_row in Hwide.
    exists (fold_right Nat.max 0%nat (map width (rows0 ++ [r])%list)).
    split; [lia |].
    destruct (Nat.eqb_spec (List.length header)
                (fold_right Nat.max 0%nat (map width (rows0 ++ [r])%list)))
      as [Eq | _]; [lia |].
    rewrite E. reflexivity.
Qed.

(** X27.  A run without a readable file gives no summary.  With no path
    selected it ends at once; with paths selected that all fail to read it
    ends on the use of [df], which was never bound. *)
Theorem summary_needs_a_readable_file (w : world) (paths : list string) :
  Forall (fun p => readable w p = false) paths ->
  process_files basename round4 w paths =
  match paths with
  | [] => NoFileSelected
  | _ => Crashed Unbound_df
  end.
Proof.
  intros H. unfold process_files. destruct paths as [|p paths]; [reflexivity |].
  destruct (read_all_spec w (p :: paths) [] None) as (more & -> & _).
  rewrite (last_frame_unreadable w (p :: paths) None H). reflexivity.
Qed.

Lemma lower_keeps_colon (s : string) :
  occurs ":" s = true -> occurs ":" (lower s) = true.
Proof.
  induction s as [|c s IH]; simpl; [discriminate |].
  intros H. apply orb_true_iff in H. destruct H as [H | H].
  - apply Ascii.eqb_eq in H. subst c. reflexivity.
  - rewrite (IH H). apply orb_true_r.
Qed.

(** An identifier of the normalizer is a channel for the batch run. *)
Lemma identifier_is_channel (name unit : string) (index : nat) :
  is_channel (normalize name unit index) = true.
Proof.
  unfold is_channel. apply negb_true_iff.
  destruct (String.eqb_spec (lower (normalize name unit index)) "time")
    as [E |]; [| reflexivity].
  pose proof (lower_keeps_colon _ (normalize_has_colon name unit index)) as Hc.
  rewrite E in Hc. discriminate.
Qed.

(** X28.  The row of a binary file.  Its counts are, channel by channel in
    the order of the driver, the cycle counts of the samples the driver
    delivered, at the threshold 10.0; the time column is not counted, so a
    file of [nChannels] channels gives that many counts, under the
    identifiers the header reader returns. *)
Theorem binary_row_counts (w : world) (path : string) (d : file_data) (r : row) :
  read_lynx_file w path = Ok d ->
  row_of basename round4 path d = Ok r ->
  let o := Dispatch_FileTS w path in
  channels_of (df_temp d) = header_names (SnName o) (SnUnit o) (nChannels o) /\
  cycles r =
    map (fun i =>
           count_cycles_zero_crossing
             (map (buffer_of (ReadBuffer o i 0%Z (nSamples o)))
                  (seq 0 (nSamples o)))
             10.0)
        (seq 0 (nChannels o)) /\
  List.length (cycles r) = nChannels o.
Proof.
  intros H Hrow o.
  pose proof (read_lynx_file_shape w path d H) as Hshape.
  cbv zeta in Hshape. fold o in Hshape.
  pose proof (read_lynx_file_names_NoDup w path d H) as Hnd.
  rewrite (proj2 (proj2 (proj2 (proj2 (read_lynx_file_ok w path d H))))) in Hnd.
  assert (Hch : channels_of (df_temp d)
                = header_names (SnName o) (SnUnit o) (nChannels o)).
  { unfold channels_of, columns. rewrite Hshape, map_app, map_map, filter_app.
    cbn [map fst filter]. replace (is_channel "time") with false by reflexivity.
    rewrite app_nil_r. unfold header_names.
    generalize (seq 0 (nChannels o)). intros l.
    induction l as [|i l IH]; [reflexivity |].
    cbn [map filter]. rewrite identifier_is_channel. f_equal. exact IH. }
  assert (Hcyc : cycles r =
            map (fun i =>
                   count_cycles_zero_crossing
                     (map (buffer_of (ReadBuffer o i 0%Z (nSamples o)))
                          (seq 0 (nSamples o)))
                     10.0)
                (seq 0 (nChannels o))).
  { unfold row_of in Hrow. destruct (duration d); [discriminate |].
    injection Hrow as <-. cbn [cycles]. rewrite Hch. unfold header_names.
    rewrite map_map. apply map_ext_in. intros i Hi.
    unfold values_of.
    rewrite (getitem_unique (df_temp d) _
               (map (buffer_of (ReadBuffer o i 0%Z (nSamples o)))
                    (seq 0 (nSamples o))) Hnd); [reflexivity |].
    rewrite Hshape. apply in_or_app. left.
    apply in_map_iff. exists i. split; [reflexivity | exact Hi]. }
  split; [exact Hch |]. split; [exact Hcyc |].
  rewrite Hcyc. now rewrite length_map, length_seq.
Qed.

End ProcessFacts.

Section ProcessWitnesses.
Import FileIO CycleCount Notions Drivers Headers Process.
Open Scope string_scope.

Lemma summary_rows_follow_reads_witness :
  exists header rows,
    process_files (fun p => p) (fun x => x)
                  (Samples.world_of Samples.table_time_first)
                  ["a.tem"; "notes.xyz"; "b.csv"]
    = Summary header rows /\
    map File rows = ["a.tem"; "b.csv"].
Proof.
  eexists. eexists. split; [reflexivity |].
  exact (proj1 (summary_rows_follow_reads (fun p => p) (fun x => x)
                  (Samples.world_of Samples.table_time_first)
                  ["a.tem"; "notes.xyz"; "b.csv"] _ _ eq_refl)).
Defined.

Lemma summary_header_from_last_read_witness :
  (exists lines,
     summary_frame (fun p => p) (fun x => x)
                   (Samples.world_of [("time", [0; 1]); ("A", [20; -20])])
                   ["b.csv"; "a.tem"; "notes.xyz"]
     = Frame ["File"; "Duration (s)"; "1:Force_X[k_N]"; "2:Force_X[k_N]"] lines /\
     map counts lines = [[Some 0%Z; None]; [Some 0%Z; Some 0%Z]]) /\
  summary_frame (fun p => p) (fun x => x)
                (Samples.world_of [("time", [0; 1]); ("A", [20; -20])])
                ["a.tem"; "b.csv"; "notes.xyz"]
  = Ended (Uncaught (ValueError "3 columns passed, passed data had 4 columns")).
Proof.
  split.
  - destruct (summary_header_from_last_read (fun p => p) (fun x => x)
                (Samples.world_of [("time", [0; 1]); ("A", [20; -20])])
                ["b.csv"] ["notes.xyz"] "a.tem" _ eq_refl
                ltac:(repeat constructor))
      as (rows & Hrows & Hfit & _).
    cbv zeta in Hfit. vm_compute in Hrows. injection Hrows as <-.
    eexists. split.
    + apply Hfit. repeat constructor; simpl; lia.
    + reflexivity.
  - destruct (summary_header_from_last_read (fun p => p) (fun x => x)
                (Samples.world_of [("time", [0; 1]); ("A", [20; -20])])
                ["a.tem"] ["notes.xyz"] "b.csv" _ eq_refl
                ltac:(repeat constructor))
      as (rows & Hrows & _ & Hwide).
    reflexivity.
Defined.

Lemma summary_needs_a_readable_file_witness :
  process_files (fun p => p) (fun x => x)
                (Samples.world_of Samples.table_Time) ["a.csv"; "notes.xyz"]
  = Crashed Unbound_df.
Proof.
  refine (summary_needs_a_readable_file (fun p => p) (fun x => x)
            (Samples.world_of Samples.table_Time) ["a.csv"; "notes.xyz"] _).
  repeat constructor.
Defined.

Lemma binary_row_counts_witness :
  exists d r,
    read_lynx_file (Samples.world_of []) "a.tem" = Ok d /\
    row_of (fun p => p) (fun x => x) "a.tem" d = Ok r /\
    List.length (cycles r) = 2%nat.
Proof.
  eexists. eexists. split; [reflexivity |]. split; [reflexivity |].
  exact (proj2 (proj2 (binary_row_counts (fun p => p) (fun x => x)
                         (Samples.world_of []) "a.tem" _ _ eq_refl eq_refl))).
Defined.

End ProcessWitnesses.
